(** * QueueCTL (flam): the job-lifecycle engine

    A shallow embedding of [flam/db.py] and [flam/worker.py]: the [jobs]
    table, the claim transaction, the executor wrapper, the outcome
    writers, the recovery sweep and the worker loop, followed by the
    properties of the specification that these functions decide.

    Modelling conventions.
    - A row of [jobs] is a record; the table is the list of its rows in
      rowid order.  TEXT columns are strings, NULL is [None], INTEGER
      columns are [Z].
    - REAL columns and Python floats are rationals ([Q]): arithmetic is
      exact, rounding and overflow of IEEE doubles are not represented.
    - A naive UTC [datetime] is its number of microseconds since
      1970-01-01T00:00:00; [isoformat] prints it the way Python does.
    - Timestamps are stored as TEXT and compared the way SQLite compares
      TEXT under the BINARY collation: byte-wise, lexicographically.
    - Every Python function that opens a connection is a computation in
      a state monad over the [world]: the tables, the wall clock and the
      counters of the external oracles (clock drift, uuid generator,
      child processes, stop flag).  [print] calls are not represented. *)

From Stdlib Require Import ZArith QArith List String Ascii Bool Lia.
From Stdlib Require Import DecimalString OrderedTypeEx.
From Stdlib Require Import Permutation Sorted Relations.
Import ListNotations.

Local Open Scope string_scope.
Local Open Scope Z_scope.

(* ================================================================== *)
(** ** Text *)

Module Text.

(** [str(n)] for a Python int. *)
Definition str_int (n : Z) : string := NilZero.string_of_int (Z.to_int n).

(** [s[:n]]: the first [n] characters. *)
Definition slice_to (n : nat) (s : string) : string := substring 0 n s.

(** [s.zfill(w)] for the decimal of a non-negative number, as produced by
    the [%02d], [%04d] and [%06d] fields of [isoformat]. *)
Fixpoint zeros (n : nat) : string :=
  match n with O => "" | S k => String "0" (zeros k) end.

Definition pad (w : nat) (n : Z) : string :=
  let d := str_int n in zeros (w - String.length d) ++ d.

(** [s or default] on a string: the empty string is falsy. *)
Definition or_else (s default : string) : string :=
  match s with EmptyString => default | _ => s end.

(** [x or ""] where [x] may be [None]. *)
Definition or_empty (x : option string) : string :=
  match x with Some s => s | None => "" end.

(** Removes the first [n] characters. *)
Fixpoint drop (n : nat) (s : string) : string :=
  match n, s with
  | O, _ => s
  | S k, String _ s' => drop k s'
  | S _, EmptyString => EmptyString
  end.

(** [s.replace(old, new)] for a non-empty [old]; [fuel] bounds the number
    of scanning steps and [length s] always suffices. *)
Fixpoint replace_fuel (fuel : nat) (old new s : string) : string :=
  match fuel with
  | O => s
  | S k =>
      match s with
      | EmptyString => EmptyString
      | String c s' =>
          if prefix old s
          then new ++ replace_fuel k old new (drop (String.length old) s)
          else String c (replace_fuel k old new s')
      end
  end.

Definition replace (old new s : string) : string :=
  replace_fuel (String.length s) old new s.

(** SQLite's comparison of two TEXT values (BINARY collation). *)
Definition text_le (a b : string) : bool := String.leb a b.
Definition text_lt (a b : string) : bool := String.ltb a b.

(** [col < ?] and [col <= ?] where the column may be NULL: a comparison
    with NULL is NULL, which a WHERE clause treats as false. *)
Definition null_lt (col : option string) (v : string) : bool :=
  match col with Some c => text_lt c v | None => false end.

Definition null_le (col : option string) (v : string) : bool :=
  match col with Some c => text_le c v | None => false end.

Definition is_null {A} (col : option A) : bool :=
  match col with Some _ => false | None => true end.

End Text.

(* ================================================================== *)
(** ** Time *)

Module Time.

(** A naive UTC datetime: microseconds since the Unix epoch. *)
Definition datetime := Z.

Definition us_per_second : Z := 1000000.
Definition us_per_day : Z := 86400 * us_per_second.

(** Proleptic Gregorian date of a day number counted from 1970-01-01. *)
Definition civil_from_days (days : Z) : Z * Z * Z :=
  let z := days + 719468 in
  let era := z / 146097 in
  let doe := z - era * 146097 in
  let yoe := (doe - doe / 1460 + doe / 36524 - doe / 146096) / 365 in
  let y := yoe + era * 400 in
  let doy := doe - (365 * yoe + yoe / 4 - yoe / 100) in
  let mp := (5 * doy + 2) / 153 in
  let d := doy - (153 * mp + 2) / 5 + 1 in
  let m := if mp <? 10 then mp + 3 else mp - 9 in
  (if m <=? 2 then y + 1 else y, m, d).

(** [datetime.isoformat()] of a naive datetime: the fraction is printed
    only when the microsecond field is not zero. *)
Definition isoformat (t : datetime) : string :=
  let '(y, m, d) := civil_from_days (t / us_per_day) in
  let r := t mod us_per_day in
  let secs := r / us_per_second in
  let us := r mod us_per_second in
  Text.pad 4 y ++ "-" ++ Text.pad 2 m ++ "-" ++ Text.pad 2 d ++ "T" ++
  Text.pad 2 (secs / 3600) ++ ":" ++ Text.pad 2 ((secs / 60) mod 60) ++ ":" ++
  Text.pad 2 (secs mod 60) ++
  (if us =? 0 then "" else "." ++ Text.pad 6 us).

(** [dt.replace(tzinfo=timezone.utc).isoformat()]: the same text followed
    by the UTC offset. *)
Definition isoformat_utc (t : datetime) : string := isoformat t ++ "+00:00".

(** Rounding of a rational to the nearest integer, ties to even. *)
Definition round_half_even (q : Q) : Z :=
  let a := Qnum q in
  let b := Zpos (Qden q) in
  let fl := a / b in
  let r := a mod b in
  match 2 * r ?= b with
  | Lt => fl
  | Gt => fl + 1
  | Eq => if Z.even fl then fl else fl + 1
  end.

(** [timedelta(seconds=x)] in microseconds. *)
Definition timedelta_seconds (x : Q) : Z :=
  round_half_even (x * inject_Z us_per_second)%Q.

(** [time.time()] for the instant [t]: seconds since the epoch. *)
Definition epoch_seconds (t : datetime) : Q := Qmake t 1000000.

End Time.

(* ================================================================== *)
(** ** The [jobs] and [config] tables *)

Inductive job_state : Type := pending | processing | completed | dead.

Definition job_state_eqb (a b : job_state) : bool :=
  match a, b with
  | pending, pending | processing, processing
  | completed, completed | dead, dead => true
  | _, _ => false
  end.

(** One row of [jobs], column by column as [init_db] declares them. *)
Record job : Type := mkJob {
  id : string;
  command : string;
  state : job_state;
  attempts : Z;
  max_retries : Z;
  base_backoff : Q;
  next_run_at : option string;
  last_error : option string;
  locked_by : option string;
  locked_at : option string;
  created_at : string;
  updated_at : string;
  timeout_seconds : Z;
  priority : Z;
  last_output : option string;
  duration_seconds : option Q
}.

(** [SET col = v] on one row, one definition per assigned column. *)
Definition set_state (v : job_state) (j : job) : job :=
  {| id := id j;
     command := command j;
     state := v;
     attempts := attempts j;
     max_retries := max_retries j;
     base_backoff := base_backoff j;
     next_run_at := next_run_at j;
     last_error := last_error j;
     locked_by := locked_by j;
     locked_at := locked_at j;
     created_at := created_at j;
     updated_at := updated_at j;
     timeout_seconds := timeout_seconds j;
     priority := priority j;
     last_output := last_output j;
     duration_seconds := duration_seconds j |}.

Definition set_attempts (v : Z) (j : job) : job :=
  {| id := id j;
     command := command j;
     state := state j;
     attempts := v;
     max_retries := max_retries j;
     base_backoff := base_backoff j;
     next_run_at := next_run_at j;
     last_error := last_error j;
     locked_by := locked_by j;
     locked_at := locked_at j;
     created_at := created_at j;
     updated_at := updated_at j;
     timeout_seconds := timeout_seconds j;
     priority := priority j;
     last_output := last_output j;
     duration_seconds := duration_seconds j |}.

Definition set_next_run_at (v : option string) (j : job) : job :=
  {| id := id j;
     command := command j;
     state := state j;
     attempts := attempts j;
     max_retries := max_retries j;
     base_backoff := base_backoff j;
     next_run_at := v;
     last_error := last_error j;
     locked_by := locked_by j;
     locked_at := locked_at j;
     created_at := created_at j;
     updated_at := updated_at j;
     timeout_seconds := timeout_seconds j;
     priority := priority j;
     last_output := last_output j;
     duration_seconds := duration_seconds j |}.

Definition set_last_error (v : option string) (j : job) : job :=
  {| id := id j;
     command := command j;
     state := state j;
     attempts := attempts j;
     max_retries := max_retries j;
     base_backoff := base_backoff j;
     next_run_at := next_run_at j;
     last_error := v;
     locked_by := locked_by j;
     locked_at := locked_at j;
     created_at := created_at j;
     updated_at := updated_at j;
     timeout_seconds := timeout_seconds j;
     priority := priority j;
     last_output := last_output j;
     duration_seconds := duration_seconds j |}.

Definition set_locked_by (v : option string) (j : job) : job :=
  {| id := id j;
     command := command j;
     state := state j;
     attempts := attempts j;
     max_retries := max_retries j;
     base_backoff := base_backoff j;
     next_run_at := next_run_at j;
     last_error := last_error j;
     locked_by := v;
     locked_at := locked_at j;
     created_at := created_at j;
     updated_at := updated_at j;
     timeout_seconds := timeout_seconds j;
     priority := priority j;
     last_output := last_output j;
     duration_seconds := duration_seconds j |}.

Definition set_locked_at (v : option string) (j : job) : job :=
  {| id := id j;
     command := command j;
     state := state j;
     attempts := attempts j;
     max_retries := max_retries j;
     base_backoff := base_backoff j;
     next_run_at := next_run_at j;
     last_error := last_error j;
     locked_by := locked_by j;
     locked_at := v;
     created_at := created_at j;
     updated_at := updated_at j;
     timeout_seconds := timeout_seconds j;
     priority := priority j;
     last_output := last_output j;
     duration_seconds := duration_seconds j |}.

Definition set_updated_at (v : string) (j : job) : job :=
  {| id := id j;
     command := command j;
     state := state j;
     attempts := attempts j;
     max_retries := max_retries j;
     base_backoff := base_backoff j;
     next_run_at := next_run_at j;
     last_error := last_error j;
     locked_by := locked_by j;
     locked_at := locked_at j;
     created_at := created_at j;
     updated_at := v;
     timeout_seconds := timeout_seconds j;
     priority := priority j;
     last_output := last_output j;
     duration_seconds := duration_seconds j |}.

Definition set_last_output (v : option string) (j : job) : job :=
  {| id := id j;
     command := command j;
     state := state j;
     attempts := attempts j;
     max_retries := max_retries j;
     base_backoff := base_backoff j;
     next_run_at := next_run_at j;
     last_error := last_error j;
     locked_by := locked_by j;
     locked_at := locked_at j;
     created_at := created_at j;
     updated_at := updated_at j;
     timeout_seconds := timeout_seconds j;
     priority := priority j;
     last_output := v;
     duration_seconds := duration_seconds j |}.

Definition set_duration_seconds (v : option Q) (j : job) : job :=
  {| id := id j;
     command := command j;
     state := state j;
     attempts := attempts j;
     max_retries := max_retries j;
     base_backoff := base_backoff j;
     next_run_at := next_run_at j;
     last_error := last_error j;
     locked_by := locked_by j;
     locked_at := locked_at j;
     created_at := created_at j;
     updated_at := updated_at j;
     timeout_seconds := timeout_seconds j;
     priority := priority j;
     last_output := last_output j;
     duration_seconds := v |}.

(** The columns that the claim query selects; [dict(row)] holds exactly
    these keys. *)
Module Snapshot.
Record t : Type := mk {
  id : string;
  command : string;
  attempts : Z;
  max_retries : Z;
  base_backoff : Q;
  timeout_seconds : Z;
  priority : Z
}.
End Snapshot.

Definition snapshot (j : job) : Snapshot.t :=
  {| Snapshot.id := id j;
     Snapshot.command := command j;
     Snapshot.attempts := attempts j;
     Snapshot.max_retries := max_retries j;
     Snapshot.base_backoff := base_backoff j;
     Snapshot.timeout_seconds := timeout_seconds j;
     Snapshot.priority := priority j |}.

Definition table := list job.

(** [SELECT ... WHERE w]: the matching rows in rowid order. *)
Definition sql_select (w : job -> bool) (t : table) : table := filter w t.

(** [UPDATE jobs SET s WHERE w]: the new table and the number of rows
    affected ([cursor.rowcount]). *)
Definition sql_update (w : job -> bool) (s : job -> job) (t : table)
  : table * nat :=
  (map (fun j => if w j then s j else j) t, List.length (filter w t)).

(** [ORDER BY]: a stable insertion sort under the comparison [le]. *)
Fixpoint insert_by (le : job -> job -> bool) (x : job) (l : table) : table :=
  match l with
  | [] => [x]
  | y :: l' => if le x y then x :: y :: l' else y :: insert_by le x l'
  end.

Fixpoint order_by (le : job -> job -> bool) (l : table) : table :=
  match l with
  | [] => []
  | x :: l' => insert_by le x (order_by le l')
  end.

(** [LIMIT 1] read with [fetchone()]. *)
Definition fetchone (l : table) : option job := hd_error l.

(** [id] is the PRIMARY KEY: an INSERT of a present id is refused. *)
Definition has_id (i : string) (t : table) : bool :=
  existsb (fun j => String.eqb (id j) i) t.

Inductive sqlite_error : Type := IntegrityError.

Definition sql_insert (j : job) (t : table) : sqlite_error + table :=
  if has_id (id j) t then inl IntegrityError else inr (t ++ [j])%list.

(** The [config] table: [(key TEXT PRIMARY KEY, value TEXT)]. *)
Definition config_table := list (string * string).

Fixpoint config_lookup (k : string) (c : config_table) : option string :=
  match c with
  | [] => None
  | (k', v) :: c' => if String.eqb k' k then Some v else config_lookup k c'
  end.

Definition insert_or_ignore (k v : string) (c : config_table) : config_table :=
  match config_lookup k c with
  | Some _ => c
  | None => (c ++ [(k, v)])%list
  end.

Definition insert_or_replace (k v : string) (c : config_table) : config_table :=
  (filter (fun kv => negb (String.eqb (fst kv) k)) c ++ [(k, v)])%list.

(* ================================================================== *)
(** ** The world outside the program *)

(** What [subprocess.run] does with a command. *)
Inductive run_result : Type :=
| Completed (returncode : Z) (stdout stderr : option string)
| TimeoutExpired
| Raised (message : string).

(** The parts of the operating system the program consults.  None of them
    is under the program's control, so each is an arbitrary function. *)
Record system : Type := mkSystem {
  (** time that passes before the [n]-th reading of the clock *)
  drift : nat -> Z;
  (** the [n]-th value of [uuid.uuid4().hex] *)
  uuid4_hex : nat -> string;
  (** result of running a command with a timeout from a given instant,
      and the time the call took, in microseconds *)
  subprocess_run : string -> Z -> Time.datetime -> run_result * Z;
  (** [os.path.exists("stop.flag")] at a given instant *)
  stop_flag : Time.datetime -> bool;
  (** the module-level [WORKER_ID] of this process *)
  WORKER_ID : string
}.

Record world : Type := mkWorld {
  sys : system;
  jobs : table;
  config : config_table;
  clock : Time.datetime;
  reads : nat;
  uuids : nat
}.

Definition with_jobs (t : table) (w : world) : world :=
  {| sys := sys w; jobs := t; config := config w;
     clock := clock w; reads := reads w; uuids := uuids w |}.

Definition with_config (c : config_table) (w : world) : world :=
  {| sys := sys w; jobs := jobs w; config := c;
     clock := clock w; reads := reads w; uuids := uuids w |}.

Definition advance (d : Z) (w : world) : world :=
  {| sys := sys w; jobs := jobs w; config := config w;
     clock := clock w + d; reads := reads w; uuids := uuids w |}.

(** *** The state monad of the program *)

Definition M (A : Type) : Type := world -> A * world.

Definition ret {A} (a : A) : M A := fun w => (a, w).

Definition bind {A B} (c : M A) (k : A -> M B) : M B :=
  fun w => let (a, w') := c w in k a w'.

Declare Scope flam_scope.
Delimit Scope flam_scope with flam.
Notation "x <- c ;; k" := (bind c (fun x => k))
  (at level 61, c at next level, right associativity) : flam_scope.
Notation "c ;; k" := (bind c (fun _ => k))
  (at level 61, right associativity) : flam_scope.
Local Open Scope flam_scope.

Definition result_of {A} (c : M A) (w : world) : A := fst (c w).
Definition world_after {A} (c : M A) (w : world) : world := snd (c w).

(** [datetime.utcnow()]: some time passes, then the clock is read. *)
Definition utcnow : M Time.datetime :=
  fun w =>
    let t := clock w + drift (sys w) (reads w) in
    (t, {| sys := sys w; jobs := jobs w; config := config w;
           clock := t; reads := S (reads w); uuids := uuids w |}).

(** [time.time()]: the same wall clock, in seconds. *)
Definition time_time : M Q :=
  t <- utcnow ;; ret (Time.epoch_seconds t).

(** [time.sleep(s)]. *)
Definition time_sleep (s : Q) : M unit :=
  fun w => (tt, advance (Time.timedelta_seconds s) w).

(** [uuid.uuid4().hex]. *)
Definition uuid4 : M string :=
  fun w =>
    (uuid4_hex (sys w) (uuids w),
     {| sys := sys w; jobs := jobs w; config := config w;
        clock := clock w; reads := reads w; uuids := S (uuids w) |}).

(** [conn.execute] of a statement that reads the [jobs] table. *)
Definition query {A} (f : table -> A) : M A := fun w => (f (jobs w), w).

(** [conn.execute] of an UPDATE: returns the cursor's row count. *)
Definition execute_update (w_ : job -> bool) (s : job -> job) : M nat :=
  fun w => let (t, n) := sql_update w_ s (jobs w) in (n, with_jobs t w).

(** [conn.execute] of a statement that changes nothing but the table. *)
Definition set_jobs (t : table) : M unit := fun w => (tt, with_jobs t w).

(* ================================================================== *)
(** ** flam/db.py *)

(** [now_iso()]. *)
Definition now_iso : M string :=
  t <- utcnow ;; ret (Time.isoformat t ++ "Z").

(** [init_config()]: the defaults are inserted unless the key is present. *)
Definition init_config : M unit :=
  fun w =>
    (tt, with_config
           (insert_or_ignore "base_backoff" "2"
              (insert_or_ignore "max_retries" "3" (config w))) w).

(** [set_config(key, value)]. *)
Definition set_config (key value : string) : M unit :=
  fun w => (tt, with_config (insert_or_replace key value (config w)) w).

(** [get_config()]. *)
Definition get_config : M config_table := fun w => (config w, w).

(** [enqueue_job(command, timeout_seconds, priority, next_run_at)].  The
    INSERT names every column but [duration_seconds], which stays NULL. *)
Definition enqueue_job (command : string) (timeout_seconds priority : Z)
    (next_run_at : option string) : M (sqlite_error + string) :=
  h <- uuid4 ;;
  let job_id := Text.slice_to 8 h in
  t <- utcnow ;;
  let now := Text.replace "+00:00" "Z" (Time.isoformat_utc t) in
  fun w =>
    match
      sql_insert
        {| id := job_id;
           command := command;
           state := pending;
           attempts := 0;
           max_retries := 3;
           base_backoff := 2%Q;
           next_run_at := next_run_at;
           last_error := None;
           locked_by := None;
           locked_at := None;
           created_at := now;
           updated_at := now;
           timeout_seconds := timeout_seconds;
           priority := priority;
           last_output := None;
           duration_seconds := None |}
        (jobs w)
    with
    | inl e => (inl e, w)
    | inr t' => (inr job_id, with_jobs t' w)
    end.

(** The WHERE clauses of [recover_stuck_jobs]: the SELECT spells out
    [locked_at IS NOT NULL], the UPDATE does not. *)
Definition stuck_selected (cutoff_iso : string) (j : job) : bool :=
  job_state_eqb (state j) processing
  && negb (Text.is_null (locked_at j))
  && Text.null_lt (locked_at j) cutoff_iso.

Definition stuck_updated (cutoff_iso : string) (j : job) : bool :=
  job_state_eqb (state j) processing
  && Text.null_lt (locked_at j) cutoff_iso.

Definition requeue (updated : string) (j : job) : job :=
  set_updated_at updated
    (set_locked_at None (set_locked_by None (set_state pending j))).

(** [recover_stuck_jobs(timeout_seconds)]. *)
Definition recover_stuck_jobs (timeout_seconds : Z) : M (list string) :=
  now <- utcnow ;;
  let cutoff := now - Time.timedelta_seconds (inject_Z timeout_seconds) in
  let cutoff_iso := Time.isoformat cutoff ++ "Z" in
  stuck <- query (sql_select (stuck_selected cutoff_iso)) ;;
  updated <- now_iso ;;
  _ <- execute_update (stuck_updated cutoff_iso) (requeue updated) ;;
  ret (map id stuck).

(* ================================================================== *)
(** ** flam/worker.py *)

Definition worker_id : M string := fun w => (WORKER_ID (sys w), w).

(** The WHERE clause and the ORDER BY of the claim query. *)
Definition claim_ready (now : string) (j : job) : bool :=
  job_state_eqb (state j) pending
  && (Text.is_null (next_run_at j) || Text.null_le (next_run_at j) now).

(** [priority DESC, created_at ASC]: [a] is not after [b]. *)
Definition claim_order (a b : job) : bool :=
  (priority b <? priority a)
  || ((priority a =? priority b)
      && Text.text_le (created_at a) (created_at b)).

Definition claim_select (now : string) (t : table) : option Snapshot.t :=
  option_map snapshot
    (fetchone (order_by claim_order (sql_select (claim_ready now) t))).

Definition claim_where (i : string) (j : job) : bool :=
  String.eqb (id j) i && job_state_eqb (state j) pending.

Definition claim_set (worker locked updated : string) (j : job) : job :=
  set_updated_at updated
    (set_locked_at (Some locked)
       (set_locked_by (Some worker) (set_state processing j))).

(** [claim_one_job()]: SELECT and UPDATE inside one BEGIN IMMEDIATE
    transaction; the cursor of the UPDATE is dropped. *)
Definition claim_one_job : M (option Snapshot.t) :=
  now <- now_iso ;;
  row <- query (claim_select now) ;;
  match row with
  | None => ret None
  | Some r =>
      me <- worker_id ;;
      locked <- now_iso ;;
      updated <- now_iso ;;
      _ <- execute_update (claim_where (Snapshot.id r))
             (claim_set me locked updated) ;;
      ret (Some r)
  end.


(** [run_command(cmd, timeout_seconds)]. *)
Definition run_command (cmd : string) (timeout_seconds : Z)
  : M (Z * string * string) :=
  fun w =>
    let (r, elapsed) := subprocess_run (sys w) cmd timeout_seconds (clock w) in
    (match r with
     | Completed returncode stdout stderr =>
         (returncode, Text.or_empty stdout, Text.or_empty stderr)
     | TimeoutExpired =>
         (124, "",
          "Timeout after " ++ Text.str_int timeout_seconds ++ " seconds")
     | Raised message => (1, "", message)
     end,
     advance elapsed w).

(** The SET clauses of the three UPDATE statements of the writers. *)
Definition success_set (now output : string) (duration : Q) (j : job) : job :=
  set_updated_at now
    (set_duration_seconds (Some duration)
       (set_last_output (Some (Text.slice_to 5000 output))
          (set_state completed j))).

Definition dead_set (now output : string) (duration : Q) (attempts : Z)
    (j : job) : job :=
  set_updated_at now
    (set_duration_seconds (Some duration)
       (set_last_output (Some (Text.slice_to 5000 output))
          (set_last_error (Some "Max retries exceeded")
             (set_attempts attempts (set_state dead j))))).

Definition retry_set (now next_run output : string) (duration : Q)
    (attempts : Z) (j : job) : job :=
  set_updated_at now
    (set_duration_seconds (Some duration)
       (set_last_output (Some (Text.slice_to 5000 output))
          (set_last_error (Some "Job failed")
             (set_next_run_at (Some next_run)
                (set_attempts attempts (set_state pending j)))))).

(** [update_job_success(job_id, output, duration)]. *)
Definition update_job_success (job_id output : string) (duration : Q)
  : M unit :=
  now <- now_iso ;;
  _ <- execute_update (fun j => String.eqb (id j) job_id)
         (success_set now output duration) ;;
  ret tt.

(** [update_job_failure(job, output, duration)]. *)
Definition update_job_failure (job : Snapshot.t) (output : string)
    (duration : Q) : M unit :=
  let attempts := Snapshot.attempts job + 1 in
  now <- now_iso ;;
  t <- utcnow ;;
  let next_run :=
    Time.isoformat
      (t + Time.timedelta_seconds (Qpower (Snapshot.base_backoff job) attempts))
    ++ "Z" in
  if Snapshot.max_retries job <? attempts then
    _ <- execute_update (fun j => String.eqb (id j) (Snapshot.id job))
           (dead_set now output duration attempts) ;;
    ret tt
  else
    _ <- execute_update (fun j => String.eqb (id j) (Snapshot.id job))
           (retry_set now next_run output duration attempts) ;;
    ret tt.

(** One pass through the body of the [while True] of [worker_loop], after
    the stop flag was found absent. *)
Definition worker_iteration (poll_interval start : Q) : M unit :=
  job <- claim_one_job ;;
  match job with
  | None => time_sleep poll_interval
  | Some job =>
      let jid := Snapshot.id job in
      let cmd := Snapshot.command job in
      let timeout_sec := Snapshot.timeout_seconds job in
      r <- run_command cmd timeout_sec ;;
      let '(code, out, err) := r in
      now <- time_time ;;
      let duration := (now - start)%Q in
      let combined_output := Text.or_else out "" ++ Text.or_else err "" in
      (if code =? 0
       then update_job_success jid combined_output duration
       else update_job_failure job
              (Text.or_else combined_output "Unknown error") duration) ;;
      time_sleep (2 # 10)
  end.

Definition stop_flag_exists : M bool :=
  fun w => (stop_flag (sys w) (clock w), w).

(** The loop, for at most [fuel] passes: [true] when it left through the
    stop flag, [false] when the passes ran out first. *)
Fixpoint worker_loop_from (fuel : nat) (poll_interval start : Q) : M bool :=
  match fuel with
  | O => ret false
  | S k =>
      stop <- stop_flag_exists ;;
      if stop then ret true
      else worker_iteration poll_interval start ;;
           worker_loop_from k poll_interval start
  end.

(** [worker_loop(poll_interval)]. *)
Definition worker_loop (fuel : nat) (poll_interval : Q) : M bool :=
  start <- time_time ;;
  worker_loop_from fuel poll_interval start.

(* ================================================================== *)
(** ** Predicates of the specification *)

(** Eligible: pending, and [next_run_at] absent or not after [now]. *)
Definition eligible (now : string) (j : job) : Prop :=
  state j = pending /\
  (next_run_at j = None \/
   exists t, next_run_at j = Some t /\ Text.text_le t now = true).

(** I2: outside [processing] the lease columns are absent. *)
Definition I2 (j : job) : Prop :=
  state j = pending \/ state j = completed \/ state j = dead ->
  locked_by j = None /\ locked_at j = None.

(** I6: [last_output], when set, has at most 5,000 characters. *)
Definition I6 (j : job) : Prop :=
  forall o, last_output j = Some o -> (String.length o <= 5000)%nat.

(** The first row of an ordered result is not after any other row. *)
Definition leads (le : job -> job -> bool) (h : job) (l : table) : Prop :=
  forall y, In y l -> le h y = true.


(* ================================================================== *)
(** ** A concrete system and store *)

Module Demo.

(** A machine on which every reading of the clock comes one millisecond
    after the previous event, [echo] commands succeed after 2 s, [true]
    and [false] print nothing, [sleep 5] outlives its timeout and
    anything else fails in the shell. *)
Definition machine : system :=
  {| drift := fun _ => 1000;
     uuid4_hex := fun n =>
       match n with
       | O => "3f2a9c1e5b7d4e8fa1b2c3d4e5f60718"
       | _ => "9e8d7c6b5a4f4e3d2c1b0a9f8e7d6c5b"
       end;
     subprocess_run := fun cmd _ _ =>
       if prefix "echo " cmd
       then (Completed 0 (Some (Text.drop 5 cmd)) (Some ""), 2000000)
       else if String.eqb cmd "true"
       then (Completed 0 (Some "") (Some ""), 10000)
       else if String.eqb cmd "false"
       then (Completed 1 (Some "") (Some ""), 10000)
       else if String.eqb cmd "sleep 5"
       then (TimeoutExpired, 1000000)
       else (Completed 127 (Some "") (Some "command not found"), 10000);
     stop_flag := fun _ => false;
     WORKER_ID := "0c4f81aa" |}.

Definition row (i cmd : string) (st : job_state) (prio : Z)
    (created : string) (next_run : option string) : job :=
  {| id := i; command := cmd; state := st; attempts := 0;
     max_retries := 3; base_backoff := 2%Q;
     next_run_at := next_run; last_error := None;
     locked_by := None; locked_at := None;
     created_at := created; updated_at := created;
     timeout_seconds := 30; priority := prio;
     last_output := None; duration_seconds := None |}.

Definition low : job :=
  row "a0000001" "echo LOW" pending 1 "2025-01-01T10:00:00.000100Z" None.

Definition high : job :=
  row "b0000002" "echo HIGH" pending 10 "2025-01-01T10:00:01.000100Z" None.

Definition future : job :=
  row "c0000003" "echo FUTURE" pending 99 "2025-01-01T10:00:02.000100Z"
      (Some "2099-01-01T00:00:00Z").

(** A row left behind by a worker that died three hours ago. *)
Definition stuck : job :=
  set_locked_at (Some "2025-01-01T09:00:00.000100Z")
    (set_locked_by (Some "deadbeef")
       (row "d0000004" "echo STUCK" processing 0
            "2025-01-01T08:59:59.000100Z" None)).

Definition failing : job :=
  row "e0000005" "false" pending 0 "2025-01-01T10:00:03.000100Z" None.

(** 2025-01-01T12:00:00 UTC. *)
Definition noon : Time.datetime := 1735732800000000.

Definition world_of (t : table) : world :=
  {| sys := machine; jobs := t;
     config := [("max_retries", "3"); ("base_backoff", "2")];
     clock := noon; reads := 0; uuids := 0 |}.

Definition store : world := world_of [low; high; future; stuck].


End Demo.

(* ================================================================== *)
(** ** The rest of flam/db.py *)

Definition rearm_set (now : string) (j : job) : job :=
  set_updated_at now
    (set_last_error None
       (set_next_run_at None (set_attempts 0 (set_state pending j)))).

(** [retry_dead_job(job_id)]: the SELECT asks for a dead row of that id,
    the UPDATE names the id alone. *)
Definition retry_dead_job (job_id : string) : M bool :=
  found <- query (fun t =>
             fetchone
               (sql_select
                  (fun j => String.eqb (id j) job_id
                            && job_state_eqb (state j) dead) t)) ;;
  match found with
  | None => ret false
  | Some _ =>
      now <- now_iso ;;
      _ <- execute_update (fun j => String.eqb (id j) job_id)
             (rearm_set now) ;;
      ret true
  end.

(** The text stored in the [state] column. *)
Definition state_text (s : job_state) : string :=
  match s with
  | pending => "pending"
  | processing => "processing"
  | completed => "completed"
  | dead => "dead"
  end.

Definition count_state (s : job_state) (t : table) : nat :=
  List.length (filter (fun j => job_state_eqb (state j) s) t).

(** [SELECT state, COUNT( * ) ... GROUP BY state]: one row for each state
    that occurs, in the order of the state texts. *)
Definition group_by_state (t : table) : list (job_state * nat) :=
  filter (fun p => negb (Nat.eqb (snd p) 0))
    (map (fun s => (s, count_state s t)) [completed; dead; pending; processing]).

(** [get_job_counts()]: the dict from state to count. *)
Definition get_job_counts : M (list (job_state * nat)) :=
  query group_by_state.

(** [counts.get(state, 0)] for a state given by its text. *)
Fixpoint counts_get (counts : list (job_state * nat)) (st : string) : nat :=
  match counts with
  | [] => O
  | (s, n) :: rest =>
      if String.eqb (state_text s) st then n else counts_get rest st
  end.

(** A value held by a [sqlite3.Row] of the queries below (none of them
    selects a REAL column). *)
Inductive value : Type :=
| Null
| Integer (n : Z)
| TextV (s : string).

Definition Row := list (string * value).

Inductive python_error : Type := IndexError | TypeError.

(** [row[key]]: a key that is not a selected column raises IndexError. *)
Fixpoint row_get (r : Row) (key : string) : python_error + value :=
  match r with
  | [] => inl IndexError
  | (k, v) :: r' => if String.eqb k key then inr v else row_get r' key
  end.

Definition nullable (x : option string) : value :=
  match x with Some s => TextV s | None => Null end.

Definition created_order (a b : job) : bool :=
  Text.text_le (created_at a) (created_at b).


(** [list_jobs_by_state(state)]. *)
Definition jobs_in_state (st : string) (t : table) : table :=
  order_by created_order
    (sql_select (fun j => String.eqb (state_text (state j)) st) t).

Definition list_jobs_by_state (st : string) : M (list Row) :=
  query (fun t =>
    map (fun j =>
           [("id", TextV (id j)); ("command", TextV (command j));
            ("attempts", Integer (attempts j));
            ("max_retries", Integer (max_retries j));
            ("last_error", nullable (last_error j))])
        (jobs_in_state st t)).



(* ================================================================== *)
(** ** flam/dashboard.py: the retry handler *)

(** [job_retry(job_id)]: [false] stands for the "Job not found" page.
    Neither statement looks at the state of the row. *)
Definition job_retry (job_id : string) : M bool :=
  found <- query (fun t =>
             fetchone (sql_select (fun j => String.eqb (id j) job_id) t)) ;;
  match found with
  | None => ret false
  | Some _ =>
      now <- now_iso ;;
      _ <- execute_update (fun j => String.eqb (id j) job_id)
             (rearm_set now) ;;
      ret true
  end.

(* ================================================================== *)
(** ** flam/cli.py: the commands that read the store *)

(** What a command wrote with [typer.echo], and the exception that ended
    it, if one did. *)
Record transcript : Type := mkTranscript {
  echoed : list string;
  raised : option python_error
}.

(** [str(v)] inside an f-string. *)
Definition format_value (v : value) : string :=
  match v with
  | Null => "None"
  | Integer n => Text.str_int n
  | TextV s => s
  end.

(** Truth value of a column value. *)
Definition truthy (v : value) : bool :=
  match v with
  | Null => false
  | Integer n => negb (n =? 0)
  | TextV s => negb (String.eqb s "")
  end.

(** [v[:n]]: only text can be sliced. *)
Definition slice_value (n : nat) (v : value) : python_error + string :=
  match v with
  | TextV s => inr (Text.slice_to n s)
  | _ => inl TypeError
  end.

Definition and_then {A B} (x : python_error + A) (k : A -> python_error + B)
  : python_error + B :=
  match x with inl e => inl e | inr a => k a end.

(** The line that [list_jobs] builds for one row, the lookups in the
    order in which the f-strings evaluate them. *)
Definition list_jobs_line (r : Row) : python_error + string :=
  and_then (row_get r "id") (fun i =>
  and_then (row_get r "command") (fun c =>
  and_then (row_get r "attempts") (fun a =>
  and_then (row_get r "max_retries") (fun m =>
  and_then (row_get r "next_run_at") (fun n =>
  let msg :=
    format_value i ++ " | " ++ format_value c ++ " "
    ++ "| attempts=" ++ format_value a ++ "/" ++ format_value m ++ " "
    ++ "| run_at=" ++ (if truthy n then format_value n else "ASAP") in
  and_then (row_get r "last_error") (fun e =>
  if truthy e
  then and_then (row_get r "last_error") (fun e' =>
       and_then (slice_value 60 e') (fun cut =>
       inr (msg ++ " | error=" ++ cut)))
  else inr msg)))))).

(** A [for] loop that echoes one line per row and stops at the first
    exception. *)
Fixpoint echo_rows (line : Row -> python_error + string) (rows : list Row)
    (out : list string) : transcript :=
  match rows with
  | [] => {| echoed := out; raised := None |}
  | r :: rest =>
      match line r with
      | inl e => {| echoed := out; raised := Some e |}
      | inr l => echo_rows line rest (out ++ [l])%list
      end
  end.

Definition newline : string := String (ascii_of_nat 10) "".

(** [list_jobs(state)], the [list] command. *)
Definition list_jobs (st : string) : M transcript :=
  rows <- list_jobs_by_state st ;;
  match rows with
  | [] =>
      ret {| echoed := ["No jobs found in state '" ++ st ++ "'"];
             raised := None |}
  | _ =>
      ret (echo_rows list_jobs_line rows
             [newline ++ "Jobs in state '" ++ st ++ "':"])
  end.

(** [f"{state:<12}"]. *)
Fixpoint spaces (n : nat) : string :=
  match n with O => "" | S k => String " " (spaces k) end.

Definition ljust (w : nat) (s : string) : string :=
  s ++ spaces (w - String.length s).

Definition status_line (counts : list (job_state * nat)) (st : string)
  : string :=
  "  " ++ ljust 12 st ++ " : " ++ Text.str_int (Z.of_nat (counts_get counts st)).

(** [status()], the [status] command. *)
Definition status : M transcript :=
  counts <- get_job_counts ;;
  let header := newline ++ "Job Status Summary" in
  let body :=
    map (status_line counts) ["pending"; "processing"; "completed"; "dead"] in
  ret {| echoed := header :: (body ++ [""])%list; raised := None |}.




(* ================================================================== *)
(** ** What one pass of a worker may do to the table *)

(** The SET clause that the outcome writer applies for the snapshot [c]. *)
Inductive outcome_write (c : Snapshot.t) : (job -> job) -> Prop :=
| write_success (now output : string) (duration : Q) :
    outcome_write c (success_set now output duration)
| write_dead (now output : string) (duration : Q) :
    Snapshot.max_retries c < Snapshot.attempts c + 1 ->
    outcome_write c (dead_set now output duration (Snapshot.attempts c + 1))
| write_retry (now next_run output : string) (duration : Q) :
    Snapshot.attempts c + 1 <= Snapshot.max_retries c ->
    outcome_write c
      (retry_set now next_run output duration (Snapshot.attempts c + 1)).

(** One pass: nothing claimed, or a claim followed by an outcome write. *)
Inductive pass_step (t : table) : table -> Prop :=
| pass_idle : pass_step t t
| pass_run (now me locked updated : string) (c : Snapshot.t)
    (F : job -> job) :
    claim_select now t = Some c ->
    outcome_write c F ->
    pass_step t
      (fst (sql_update (fun j => String.eqb (id j) (Snapshot.id c)) F
              (fst (sql_update (claim_where (Snapshot.id c))
                      (claim_set me locked updated) t)))).

(** Any number of passes, one after the other. *)
Definition passes : table -> table -> Prop :=
  clos_refl_trans_1n table pass_step.

(** What a pass does to one row: nothing, or, for a pending row, the
    claim followed by the outcome write for the snapshot of that row. *)
Definition row_step (r r' : job) : Prop :=
  r' = r \/
  (state r = pending /\
   exists F me locked updated,
     outcome_write (snapshot r) F /\ r' = F (claim_set me locked updated r)).

(** No character of the text is a plus sign. *)
Fixpoint plus_free (s : string) : bool :=
  match s with
  | EmptyString => true
  | String c s' => negb (Ascii.eqb c "+") && plus_free s'
  end.

(** Columns that no statement of the engine assigns after the INSERT. *)
Definition fixed_columns (j : job)
  : string * string * Z * Q * string * Z * Z :=
  (id j, command j, max_retries j, base_backoff j, created_at j,
   timeout_seconds j, priority j).

(** A dead row has used up its retries and carries an error text. *)
Definition dead_is_exhausted (j : job) : Prop :=
  state j = dead ->
  attempts j > max_retries j /\ exists e, last_error j = Some e.

(* ================================================================== *)
(** * Properties *)

(** ** Text and time *)

Lemma slice_to_length (n : nat) (s : string) :
  (String.length (Text.slice_to n s) <= n)%nat.
Proof.
  unfold Text.slice_to. revert s.
  induction n as [|n IH]; intros [|c s]; simpl; try lia.
  specialize (IH s). lia.
Qed.

Lemma slice_to_short (n : nat) (s : string) :
  (String.length s <= n)%nat -> Text.slice_to n s = s.
Proof.
  unfold Text.slice_to. revert s.
  induction n as [|n IH]; intros [|c s]; simpl; intros H;
    try reflexivity; try lia.
  rewrite IH by lia. reflexivity.
Qed.

Lemma text_le_refl (a : string) : Text.text_le a a = true.
Proof.
  unfold Text.text_le, String.leb.
  pose proof (proj2 (String_as_OT.cmp_eq a a) eq_refl) as H.
  unfold String_as_OT.cmp in H. rewrite H. reflexivity.
Qed.

Lemma text_le_total (a b : string) :
  Text.text_le a b = true \/ Text.text_le b a = true.
Proof. apply String.leb_total. Qed.


Lemma text_le_trans (a b c : string) :
  Text.text_le a b = true -> Text.text_le b c = true -> Text.text_le a c = true.
Proof.
  unfold Text.text_le, String.leb.
  destruct (String.compare a b) eqn:Hab; try discriminate; intros _;
    destruct (String.compare b c) eqn:Hbc; try discriminate; intros _.
  - apply String_as_OT.cmp_eq in Hab, Hbc. subst.
    pose proof (proj2 (String_as_OT.cmp_eq c c) eq_refl) as Hcc.
    unfold String_as_OT.cmp in Hcc. rewrite Hcc. reflexivity.
  - apply String_as_OT.cmp_eq in Hab. subst. rewrite Hbc. reflexivity.
  - apply String_as_OT.cmp_eq in Hbc. subst. rewrite Hab. reflexivity.
  - apply String_as_OT.cmp_lt in Hab, Hbc.
    pose proof (String_as_OT.lt_trans _ _ _ Hab Hbc) as Hac.
    apply String_as_OT.cmp_lt in Hac. unfold String_as_OT.cmp in Hac.
    rewrite Hac. reflexivity.
Qed.


(** ** Rows and statements *)

Arguments sql_update : simpl never.

Lemma job_state_eqb_eq (a b : job_state) : job_state_eqb a b = true <-> a = b.
Proof. destruct a, b; simpl; split; intros H; congruence. Qed.

(** An UPDATE keeps every row in its place. *)
Lemma sql_update_nth (w : job -> bool) (s : job -> job) (t : table) (n : nat) :
  nth_error (fst (sql_update w s t)) n
  = option_map (fun j => if w j then s j else j) (nth_error t n).
Proof. unfold sql_update. simpl. apply nth_error_map. Qed.


Lemma sql_update_in (w : job -> bool) (s : job -> job) (t : table) (r' : job) :
  In r' (fst (sql_update w s t)) <->
  exists r, In r t /\ r' = (if w r then s r else r).
Proof.
  unfold sql_update. simpl. rewrite in_map_iff. split.
  - intros [r [E H]]. exists r. auto.
  - intros [r [H E]]. exists r. auto.
Qed.

Lemma sql_update_ids (w : job -> bool) (s : job -> job) (t : table) :
  (forall j, id (s j) = id j) ->
  map id (fst (sql_update w s t)) = map id t.
Proof.
  intros Hs. unfold sql_update. simpl. rewrite map_map.
  apply map_ext. intros j. destruct (w j); auto.
Qed.

(** The primary key: no two rows share an id. *)
Definition unique_ids (t : table) : Prop := NoDup (map id t).

Lemma has_id_spec (i : string) (t : table) :
  has_id i t = true <-> In i (map id t).
Proof.
  unfold has_id. rewrite existsb_exists, in_map_iff. split.
  - intros [j [Hj E]]. apply String.eqb_eq in E. exists j. auto.
  - intros [j [E Hj]]. exists j. split; auto. apply String.eqb_eq. auto.
Qed.

Lemma unique_ids_same_row (t : table) (a b : job) :
  unique_ids t -> In a t -> In b t -> id a = id b -> a = b.
Proof.
  unfold unique_ids. induction t as [|x t IH]; simpl; intros Hnd Ha Hb E.
  - contradiction.
  - inversion Hnd as [|? ? Hx Hnd']; subst.
    destruct Ha as [Ha|Ha], Hb as [Hb|Hb]; subst; auto.
    + exfalso. apply Hx. rewrite E. apply in_map. exact Hb.
    + exfalso. apply Hx. rewrite <- E. apply in_map. exact Ha.
Qed.


(** ** ORDER BY ... LIMIT 1 *)

Section OrderBy.
Variable le : job -> job -> bool.
Hypothesis le_total : forall a b, le a b = true \/ le b a = true.
Hypothesis le_trans :
  forall a b c, le a b = true -> le b c = true -> le a c = true.

Lemma insert_by_in (x y : job) (l : table) :
  In y (insert_by le x l) <-> y = x \/ In y l.
Proof.
  induction l as [|z l IH]; simpl.
  - intuition.
  - destruct (le x z); simpl; rewrite ?IH; intuition.
Qed.

Lemma order_by_in (y : job) (l : table) :
  In y (order_by le l) <-> In y l.
Proof.
  induction l as [|x l IH]; simpl.
  - tauto.
  - rewrite insert_by_in, IH. intuition.
Qed.

Lemma insert_by_head (x : job) (l : table) (h : job) (rest : table) :
  (forall h0 r0, l = h0 :: r0 -> leads le h0 l) ->
  insert_by le x l = h :: rest -> leads le h (x :: l).
Proof.
  intros Hl E. destruct l as [|h0 r0]; simpl in E.
  - inversion E; subst. intros y [Hy|[]]. subst.
    destruct (le_total y y); assumption.
  - specialize (Hl h0 r0 eq_refl).
    destruct (le x h0) eqn:Hx; inversion E; subst.
    + intros y [Hy|Hy].
      * subst. destruct (le_total y y); assumption.
      * apply le_trans with h0; auto.
    + intros y [Hy|Hy].
      * subst. destruct (le_total h y) as [H|H]; congruence.
      * apply Hl. exact Hy.
Qed.

Lemma order_by_head (l : table) (h : job) (rest : table) :
  order_by le l = h :: rest -> leads le h l.
Proof.
  revert h rest. induction l as [|x l IH]; simpl; intros h rest E.
  - discriminate.
  - pose proof (insert_by_head x (order_by le l) h rest) as H.
    assert (Hl : forall h0 r0, order_by le l = h0 :: r0 ->
                               leads le h0 (order_by le l)).
    { intros h0 r0 E0 y Hy. apply (IH h0 r0 E0). apply order_by_in. exact Hy. }
    specialize (H Hl E). intros y [Hy|Hy].
    + apply H. left. exact Hy.
    + apply H. right. apply order_by_in. exact Hy.
Qed.

Lemma order_by_nil (l : table) : order_by le l = [] -> l = [].
Proof.
  destruct l as [|x l]; auto. intros E. exfalso.
  assert (H : In x (order_by le (x :: l))) by (apply order_by_in; left; auto).
  rewrite E in H. exact H.
Qed.
End OrderBy.

Lemma claim_order_total (a b : job) :
  claim_order a b = true \/ claim_order b a = true.
Proof.
  unfold claim_order.
  destruct (Z.ltb_spec (priority b) (priority a)); simpl; auto.
  destruct (Z.ltb_spec (priority a) (priority b)); simpl; auto.
  assert (E : priority a = priority b) by lia.
  rewrite E, Z.eqb_refl. simpl. apply text_le_total.
Qed.

Lemma claim_order_trans (a b c : job) :
  claim_order a b = true -> claim_order b c = true -> claim_order a c = true.
Proof.
  unfold claim_order. intros Hab Hbc.
  apply orb_true_iff in Hab. apply orb_true_iff in Hbc. apply orb_true_iff.
  rewrite !andb_true_iff, !Z.ltb_lt, !Z.eqb_eq in *.
  destruct Hab as [Hab|[Eab Lab]], Hbc as [Hbc|[Ebc Lbc]].
  - left. lia.
  - left. lia.
  - left. lia.
  - right. split; [lia|]. eapply text_le_trans; eauto.
Qed.

(** What [claim_order] says about the two sort keys. *)
Lemma claim_order_keys (a b : job) :
  claim_order a b = true ->
  priority b <= priority a /\
  (priority b = priority a ->
   Text.text_le (created_at a) (created_at b) = true).
Proof.
  unfold claim_order. intros H. apply orb_true_iff in H.
  rewrite andb_true_iff, Z.ltb_lt, Z.eqb_eq in H.
  destruct H as [H|[E L]]; split; try lia; auto.
Qed.

(** ** The claim transaction *)

Lemma claim_ready_spec (now : string) (j : job) :
  claim_ready now j = true <-> eligible now j.
Proof.
  unfold claim_ready, eligible.
  rewrite andb_true_iff, orb_true_iff, job_state_eqb_eq.
  destruct (next_run_at j) as [t|]; simpl; split.
  - intros [Hs [H|H]]; [discriminate|]. split; auto. right. exists t. auto.
  - intros [Hs [H|[t' [E H]]]]; [discriminate|]. inversion E; subst. auto.
  - intros [Hs _]. auto.
  - intros [Hs _]. auto.
Qed.

Lemma claim_select_some (now : string) (t : table) (c : Snapshot.t) :
  claim_select now t = Some c ->
  exists r, In r t /\ snapshot r = c /\ claim_ready now r = true /\
            forall r', In r' t -> claim_ready now r' = true ->
                       claim_order r r' = true.
Proof.
  unfold claim_select, fetchone, sql_select.
  destruct (order_by claim_order (filter (claim_ready now) t)) as [|h rest] eqn:E;
    simpl; intros H; inversion H; subst.
  assert (Hh : In h (filter (claim_ready now) t)).
  { apply (order_by_in claim_order). rewrite E. left. reflexivity. }
  apply filter_In in Hh. destruct Hh as [Hin Hr].
  exists h. repeat split; auto.
  intros r' Hin' Hr'.
  apply (order_by_head claim_order claim_order_total claim_order_trans _ _ _ E).
  apply filter_In. auto.
Qed.

Lemma claim_select_none (now : string) (t : table) :
  claim_select now t = None ->
  forall r, In r t -> claim_ready now r = false.
Proof.
  unfold claim_select, fetchone, sql_select.
  destruct (order_by claim_order (filter (claim_ready now) t)) as [|h rest] eqn:E;
    simpl; intros H; inversion H.
  apply order_by_nil in E. intros r Hin.
  destruct (claim_ready now r) eqn:Hr; auto.
  assert (Hf : In r (filter (claim_ready now) t)) by (apply filter_In; auto).
  rewrite E in Hf. contradiction.
Qed.

(** [claim_one_job] step by step: three readings of the clock, one SELECT,
    at most one UPDATE. *)
Lemma claim_one_job_unfold (w : world) :
  claim_one_job w =
  let (now, w1) := now_iso w in
  match claim_select now (jobs w) with
  | None => (None, w1)
  | Some r =>
      let (locked, w2) := now_iso w1 in
      let (updated, w3) := now_iso w2 in
      (Some r,
       with_jobs
         (fst (sql_update (claim_where (Snapshot.id r))
                 (claim_set (WORKER_ID (sys w)) locked updated) (jobs w)))
         w3)
  end.
Proof.
  unfold claim_one_job, bind, now_iso, utcnow, query, worker_id,
    execute_update, ret, bind. simpl.
  destruct (claim_select _ (jobs w)); reflexivity.
Qed.


Lemma unique_ids_demo_store : unique_ids (jobs Demo.store).
Proof.
  unfold unique_ids. simpl.
  repeat (constructor; [simpl; intuition discriminate|]). constructor.
Defined.


(** The transition itself: the selected row, and only that row, becomes
    [processing] under the lease of this worker. *)
Lemma claim_marks_selected_processing (w : world) (c : Snapshot.t) :
  unique_ids (jobs w) ->
  result_of claim_one_job w = Some c ->
  let w1 := world_after now_iso w in
  let locked := result_of now_iso w1 in
  let updated := result_of now_iso (world_after now_iso w1) in
  let w' := world_after claim_one_job w in
  forall n r, nth_error (jobs w) n = Some r ->
    (id r = Snapshot.id c ->
     nth_error (jobs w') n
     = Some (claim_set (WORKER_ID (sys w)) locked updated r) /\
     state r = pending) /\
    (id r <> Snapshot.id c -> nth_error (jobs w') n = Some r).
Proof.
  intros Huniq Hres. cbv zeta. unfold result_of, world_after in *.
  rewrite claim_one_job_unfold in *.
  destruct (now_iso w) as [now w1]. cbn [fst snd] in *.
  destruct (claim_select now (jobs w)) as [c'|] eqn:Hsel;
    [|discriminate Hres].
  destruct (now_iso w1) as [locked w2]. cbn [fst snd] in *.
  destruct (now_iso w2) as [updated w3].
  cbn [fst snd] in *. inversion Hres; subst c'.
  change (jobs (with_jobs ?x _)) with x.
  destruct (claim_select_some _ _ _ Hsel) as [r0 [Hin0 [Hsnap [Hready _]]]].
  intros n r Hn. rewrite sql_update_nth, Hn. cbn [option_map].
  unfold claim_where. split.
  - intros Hid. assert (E : r = r0).
    { apply (unique_ids_same_row (jobs w)); auto.
      - eapply nth_error_In; eauto.
      - rewrite Hid, <- Hsnap. reflexivity. }
    subst r0. apply claim_ready_spec in Hready. destruct Hready as [Hst _].
    rewrite Hid, String.eqb_refl, Hst. cbn [andb job_state_eqb].
    split; reflexivity.
  - intros Hid. apply String.eqb_neq in Hid. rewrite Hid. reflexivity.
Qed.





(** ** The outcome writers *)

Lemma update_job_success_unfold (job_id output : string) (duration : Q)
    (w : world) :
  update_job_success job_id output duration w =
  let (now, w1) := now_iso w in
  (tt, with_jobs
         (fst (sql_update (fun j => String.eqb (id j) job_id)
                 (success_set now output duration) (jobs w)))
         w1).
Proof. reflexivity. Qed.

Lemma update_job_failure_unfold (job : Snapshot.t) (output : string)
    (duration : Q) (w : world) :
  update_job_failure job output duration w =
  let attempts := Snapshot.attempts job + 1 in
  let (now, w1) := now_iso w in
  let (t, w2) := utcnow w1 in
  let next_run :=
    Time.isoformat
      (t + Time.timedelta_seconds (Qpower (Snapshot.base_backoff job) attempts))
    ++ "Z" in
  (tt, with_jobs
         (fst (sql_update (fun j => String.eqb (id j) (Snapshot.id job))
                 (if Snapshot.max_retries job <? attempts
                  then dead_set now output duration attempts
                  else retry_set now next_run output duration attempts)
                 (jobs w)))
         w2).
Proof.
  unfold update_job_failure, bind, now_iso, utcnow, execute_update, ret.
  cbv zeta. cbn [fst snd].
  destruct (Snapshot.max_retries job <? Snapshot.attempts job + 1);
    reflexivity.
Qed.



(** Neither writer assigns [locked_by] or [locked_at]. *)
Lemma outcome_writers_keep_lock (w : world) (claimed : Snapshot.t)
    (job_id output : string) (duration : Q) (n : nat) (r : job) :
  nth_error (jobs w) n = Some r ->
  (exists r',
     nth_error
       (jobs (world_after (update_job_success job_id output duration) w)) n
     = Some r' /\
     locked_by r' = locked_by r /\ locked_at r' = locked_at r) /\
  (exists r',
     nth_error
       (jobs (world_after (update_job_failure claimed output duration) w)) n
     = Some r' /\
     locked_by r' = locked_by r /\ locked_at r' = locked_at r).
Proof.
  intros Hn. unfold world_after. split.
  - rewrite update_job_success_unfold. destruct (now_iso w) as [now w1].
    cbn [fst snd]. change (jobs (with_jobs ?x _)) with x.
    rewrite sql_update_nth, Hn. cbn [option_map].
    eexists. split; [reflexivity|].
    destruct (String.eqb (id r) job_id); split; reflexivity.
  - rewrite update_job_failure_unfold. cbv zeta.
    destruct (now_iso w) as [now w1]. destruct (utcnow w1) as [t w2].
    cbn [fst snd]. change (jobs (with_jobs ?x _)) with x.
    rewrite sql_update_nth, Hn. cbn [option_map].
    eexists. split; [reflexivity|].
    destruct (String.eqb (id r) (Snapshot.id claimed));
      destruct (Snapshot.max_retries claimed <? Snapshot.attempts claimed + 1);
      split; reflexivity.
Qed.

(** C2, on the code.  A worker claims [a0000001] and writes an outcome:
    after the success write the row is [completed], after a first
    failure it is [pending], after a failure beyond [max_retries] it is
    [dead]; each time [locked_by] and [locked_at] still hold the lease of
    the claim, so I2 does not hold for the row. *)
Theorem outcome_write_leaves_lease :
  let w := world_after claim_one_job (Demo.world_of [Demo.low]) in
  let c := snapshot Demo.low in
  let exhausted :=
    {| Snapshot.id := "a0000001"; Snapshot.command := "echo LOW";
       Snapshot.attempts := 3; Snapshot.max_retries := 3;
       Snapshot.base_backoff := 2%Q; Snapshot.timeout_seconds := 30;
       Snapshot.priority := 1 |} in
  let lease j :=
    locked_by j = Some "0c4f81aa" /\
    locked_at j = Some "2025-01-01T12:00:00.002000Z" in
  (exists r,
     nth_error (jobs (world_after (update_job_success "a0000001" "LOW" 2) w)) 0
     = Some r /\ state r = completed /\ lease r /\ ~ I2 r) /\
  (exists r,
     nth_error (jobs (world_after (update_job_failure c "LOW" 2) w)) 0
     = Some r /\ state r = pending /\ lease r /\ ~ I2 r) /\
  (exists r,
     nth_error (jobs (world_after (update_job_failure exhausted "LOW" 2) w)) 0
     = Some r /\ state r = dead /\ lease r /\ ~ I2 r).
Proof.
  cbv zeta.
  split; [|split]; eexists; (split; [vm_compute; reflexivity|]);
    (split; [reflexivity|]); (split; [split; reflexivity|]);
    unfold I2; cbn; intros H;
    (assert (E : Some "0c4f81aa" = @None string) by (apply H; auto));
    discriminate E.
Qed.

(** C8.  The row that a writer updates gets a [last_output] of at most
    5,000 characters, and a table in which every row satisfies I6 still
    does after either write. *)
Theorem last_output_at_most_5000 (w : world) (claimed : Snapshot.t)
    (job_id output : string) (duration : Q) :
  let ws := world_after (update_job_success job_id output duration) w in
  let wf := world_after (update_job_failure claimed output duration) w in
  (forall r, In r (jobs ws) -> id r = job_id ->
     exists o, last_output r = Some o /\ (String.length o <= 5000)%nat) /\
  (forall r, In r (jobs wf) -> id r = Snapshot.id claimed ->
     exists o, last_output r = Some o /\ (String.length o <= 5000)%nat) /\
  ((forall r, In r (jobs w) -> I6 r) ->
   (forall r, In r (jobs ws) -> I6 r) /\ (forall r, In r (jobs wf) -> I6 r)).
Proof.
  cbv zeta. unfold world_after.
  rewrite update_job_success_unfold, update_job_failure_unfold. cbv zeta.
  destruct (now_iso w) as [now w1]. destruct (utcnow w1) as [t w2].
  cbn [fst snd]. change (jobs (with_jobs ?x _)) with x.
  assert (Hcut : forall o, Some (Text.slice_to 5000 output) = Some o ->
                           (String.length o <= 5000)%nat).
  { intros o E. inversion E. apply slice_to_length. }
  split; [|split; [|intros Hinv; split]].
  - intros r' Hin Hid. apply sql_update_in in Hin.
    destruct Hin as [r [_ E]].
    destruct (String.eqb (id r) job_id) eqn:Hr.
    + subst r'. eexists. split; [reflexivity|]. apply slice_to_length.
    + subst r'. apply String.eqb_neq in Hr. contradiction.
  - intros r' Hin Hid. apply sql_update_in in Hin.
    destruct Hin as [r [_ E]].
    destruct (String.eqb (id r) (Snapshot.id claimed)) eqn:Hr.
    + subst r'.
      destruct (Snapshot.max_retries claimed <? Snapshot.attempts claimed + 1);
        eexists; (split; [reflexivity|]); apply slice_to_length.
    + subst r'. apply String.eqb_neq in Hr. contradiction.
  - intros r' Hin. apply sql_update_in in Hin. destruct Hin as [r [Hr E]].
    destruct (String.eqb (id r) job_id); subst r'.
    + exact Hcut.
    + apply Hinv. exact Hr.
  - intros r' Hin. apply sql_update_in in Hin. destruct Hin as [r [Hr E]].
    destruct (String.eqb (id r) (Snapshot.id claimed)); subst r'.
    + destruct (Snapshot.max_retries claimed <? Snapshot.attempts claimed + 1);
        exact Hcut.
    + apply Hinv. exact Hr.
Qed.

Lemma last_output_at_most_5000_witness :
  let w := Demo.world_of [Demo.low] in
  let ws :=
    world_after (update_job_success "a0000001" (Text.zeros (5000 + 17)) 2) w in
  (forall r, In r (jobs w) -> I6 r) /\
  (forall r, In r (jobs ws) -> I6 r) /\
  exists o, last_output (nth 0 (jobs ws) Demo.low) = Some o /\
            (String.length o <= 5000)%nat.
Proof.
  cbv zeta.
  assert (Hinv : forall r, In r (jobs (Demo.world_of [Demo.low])) -> I6 r).
  { intros r [E|[]]. subst r. intros o Ho. discriminate Ho. }
  pose proof (last_output_at_most_5000 (Demo.world_of [Demo.low])
                (snapshot Demo.low) "a0000001" (Text.zeros (5000 + 17)) 2) as H.
  cbv zeta in H. destruct H as [Hrow [_ Hpres]].
  split; [exact Hinv|]. split; [exact (proj1 (Hpres Hinv))|].
  apply Hrow.
  - vm_compute. left. reflexivity.
  - vm_compute. reflexivity.
Defined.

(** ** Enqueue *)

Lemma enqueue_job_unfold (cmd : string) (timeout prio : Z)
    (next_run : option string) (w : world) :
  enqueue_job cmd timeout prio next_run w =
  let (h, w1) := uuid4 w in
  let (t, w2) := utcnow w1 in
  let job_id := Text.slice_to 8 h in
  let now := Text.replace "+00:00" "Z" (Time.isoformat_utc t) in
  match
    sql_insert
      {| id := job_id; command := cmd; state := pending; attempts := 0;
         max_retries := 3; base_backoff := 2%Q; next_run_at := next_run;
         last_error := None; locked_by := None; locked_at := None;
         created_at := now; updated_at := now; timeout_seconds := timeout;
         priority := prio; last_output := None; duration_seconds := None |}
      (jobs w)
  with
  | inl e => (inl e, w2)
  | inr t' => (inr job_id, with_jobs t' w2)
  end.
Proof. reflexivity. Qed.

(** C5, as the code has it.  When [enqueue_job] returns an id, that id was
    not in the table, the table has one more row, at the end, with that
    id, [state = pending], [attempts = 0],
    [created_at = updated_at = now], and [max_retries = 3] and
    [base_backoff = 2.0] whatever the [config] table holds; the [config]
    table is not changed. *)
Theorem enqueue_job_inserts_defaults (w : world) (cmd : string)
    (timeout prio : Z) (next_run : option string) (i : string) :
  result_of (enqueue_job cmd timeout prio next_run) w = inr i ->
  let now :=
    Text.replace "+00:00" "Z" (Time.isoformat_utc (result_of utcnow w)) in
  let w' := world_after (enqueue_job cmd timeout prio next_run) w in
  ~ In i (map id (jobs w)) /\
  config w' = config w /\
  exists r,
    jobs w' = (jobs w ++ [r])%list /\
    id r = i /\ command r = cmd /\ state r = pending /\ attempts r = 0 /\
    created_at r = now /\ updated_at r = now /\
    max_retries r = 3 /\ base_backoff r = 2%Q /\
    timeout_seconds r = timeout /\ priority r = prio /\
    next_run_at r = next_run.
Proof.
  unfold result_of, world_after. rewrite enqueue_job_unfold.
  unfold uuid4, utcnow, sql_insert. cbv zeta. cbn [fst snd clock reads sys].
  destruct (has_id _ (jobs w)) eqn:Hid; cbn [fst snd]; intros E;
    inversion E; subst i.
  split; [|split].
  - intros Hin. apply has_id_spec in Hin. cbn [id] in Hid.
    rewrite Hid in Hin. discriminate Hin.
  - reflexivity.
  - eexists. split; [reflexivity|]. cbn. repeat split; reflexivity.
Qed.

Lemma enqueue_job_inserts_defaults_witness :
  let w := world_after (set_config "max_retries" "9") Demo.store in
  result_of (enqueue_job "echo hi" 30 0 None) w = inr "3f2a9c1e" /\
  exists r,
    jobs (world_after (enqueue_job "echo hi" 30 0 None) w)
    = (jobs w ++ [r])%list /\
    id r = "3f2a9c1e" /\ max_retries r = 3.
Proof.
  cbv zeta. split; [reflexivity|].
  destruct (enqueue_job_inserts_defaults
              (world_after (set_config "max_retries" "9") Demo.store)
              "echo hi" 30 0 None "3f2a9c1e" eq_refl)
    as [_ [_ [r [Hj [Hi [_ [_ [_ [_ [_ [Hm _]]]]]]]]]]].
  exists r. split; [exact Hj|]. split; [exact Hi|exact Hm].
Defined.

(** C5, as stated, fails: with [max_retries = 9] and [base_backoff = 5]
    stored in [config] when the job is enqueued, the inserted row carries
    3 and 2.0. *)
Lemma enqueue_job_ignores_config :
  let w :=
    world_after
      (init_config ;; set_config "max_retries" "9" ;;
       set_config "base_backoff" "5")
      (Demo.world_of []) in
  let w' := world_after (enqueue_job "echo hi" 30 0 None) w in
  config_lookup "max_retries" (result_of get_config w) = Some "9" /\
  config_lookup "base_backoff" (result_of get_config w) = Some "5" /\
  exists r,
    jobs w' = [r] /\
    max_retries r = 3 /\ Text.str_int (max_retries r) <> "9" /\
    base_backoff r = 2%Q /\ ~ (base_backoff r == 5)%Q.
Proof.
  cbv zeta. split; [reflexivity|]. split; [reflexivity|].
  eexists. split; [vm_compute; reflexivity|]. cbn.
  split; [reflexivity|]. split; [vm_compute; discriminate|].
  split; [reflexivity|]. intros H. vm_compute in H. discriminate H.
Qed.

(** ** The recovery sweep *)



Lemma recover_stuck_jobs_unfold (timeout : Z) (w : world) :
  recover_stuck_jobs timeout w =
  let (now, w1) := utcnow w in
  let cutoff_iso :=
    Time.isoformat (now - Time.timedelta_seconds (inject_Z timeout)) ++ "Z" in
  let (updated, w2) := now_iso w1 in
  (map id (sql_select (stuck_selected cutoff_iso) (jobs w)),
   with_jobs
     (fst (sql_update (stuck_updated cutoff_iso) (requeue updated) (jobs w)))
     w2).
Proof. reflexivity. Qed.



(** ** The executor *)

(** C9.  [run_command] with timeout [N]: when the child does not finish in
    time ([subprocess.run] raises [TimeoutExpired]) the result is
    [(124, "", "Timeout after N seconds")]; when the call raises anything
    else the result is [(1, "", message)]; otherwise it is the child's
    exit code with the captured stdout and stderr. *)
Theorem run_command_result (w : world) (cmd : string) (N : Z) :
  let outcome := fst (subprocess_run (sys w) cmd N (clock w)) in
  let result := result_of (run_command cmd N) w in
  (outcome = TimeoutExpired ->
   result = (124, "", "Timeout after " ++ Text.str_int N ++ " seconds")) /\
  (forall message, outcome = Raised message -> result = (1, "", message)) /\
  (forall code out err,
     outcome = Completed code (Some out) (Some err) ->
     result = (code, out, err)).
Proof.
  cbv zeta. unfold result_of, run_command.
  destruct (subprocess_run (sys w) cmd N (clock w)) as [o elapsed].
  cbn [fst]. split; [|split].
  - intros E. subst o. reflexivity.
  - intros message E. subst o. reflexivity.
  - intros code out err E. subst o. reflexivity.
Qed.

Lemma run_command_result_witness :
  fst (subprocess_run (sys Demo.store) "sleep 5" 1 (clock Demo.store))
  = TimeoutExpired /\
  result_of (run_command "sleep 5" 1) Demo.store
  = (124, "", "Timeout after 1 seconds").
Proof.
  split; [reflexivity|].
  exact (proj1 (run_command_result Demo.store "sleep 5" 1) eq_refl).
Defined.

(** ** The worker loop *)

Lemma worker_iteration_unfold (poll_interval start : Q) (w : world) :
  worker_iteration poll_interval start w =
  let (claimed, w1) := claim_one_job w in
  match claimed with
  | None => time_sleep poll_interval w1
  | Some c =>
      let (r, w2) :=
        run_command (Snapshot.command c) (Snapshot.timeout_seconds c) w1 in
      let '(code, out, err) := r in
      let (now, w3) := time_time w2 in
      let duration := (now - start)%Q in
      let combined_output := Text.or_else out "" ++ Text.or_else err "" in
      let w4 :=
        world_after
          (if code =? 0
           then update_job_success (Snapshot.id c) combined_output duration
           else update_job_failure c
                  (Text.or_else combined_output "Unknown error") duration)
          w3 in
      time_sleep (2 # 10) w4
  end.
Proof.
  unfold worker_iteration. unfold bind at 1.
  destruct (claim_one_job w) as [[c|] w1]; [|reflexivity].
  unfold bind at 1.
  destruct (run_command _ _ w1) as [[[code out] err] w2].
  unfold bind at 1. destruct (time_time w2) as [now w3].
  unfold bind at 1. unfold world_after.
  destruct (code =? 0).
  - destruct (update_job_success _ _ _ w3). reflexivity.
  - destruct (update_job_failure _ _ _ w3). reflexivity.
Qed.

(** *** The ids in the table *)

Lemma claim_one_job_ids (w : world) :
  map id (jobs (world_after claim_one_job w)) = map id (jobs w).
Proof.
  unfold world_after. rewrite claim_one_job_unfold.
  unfold now_iso, bind, utcnow, ret. cbn [fst snd].
  destruct (claim_select _ (jobs w)); cbn [fst snd]; [|reflexivity].
  change (jobs (with_jobs ?x _)) with x.
  apply sql_update_ids. reflexivity.
Qed.

Lemma update_job_success_ids (job_id output : string) (duration : Q)
    (w : world) :
  map id (jobs (world_after (update_job_success job_id output duration) w))
  = map id (jobs w).
Proof.
  unfold world_after. rewrite update_job_success_unfold.
  destruct (now_iso w). cbn [fst snd].
  change (jobs (with_jobs ?x _)) with x.
  apply sql_update_ids. reflexivity.
Qed.

Lemma update_job_failure_ids (claimed : Snapshot.t) (output : string)
    (duration : Q) (w : world) :
  map id (jobs (world_after (update_job_failure claimed output duration) w))
  = map id (jobs w).
Proof.
  unfold world_after. rewrite update_job_failure_unfold. cbv zeta.
  destruct (now_iso w) as [now w1]. destruct (utcnow w1). cbn [fst snd].
  change (jobs (with_jobs ?x _)) with x.
  apply sql_update_ids.
  destruct (Snapshot.max_retries claimed <? Snapshot.attempts claimed + 1);
    reflexivity.
Qed.

Lemma recover_stuck_jobs_ids (timeout : Z) (w : world) :
  map id (jobs (world_after (recover_stuck_jobs timeout) w)) = map id (jobs w).
Proof.
  unfold world_after. rewrite recover_stuck_jobs_unfold. cbv zeta.
  destruct (utcnow w) as [now w1]. destruct (now_iso w1). cbn [fst snd].
  change (jobs (with_jobs ?x _)) with x.
  apply sql_update_ids. reflexivity.
Qed.

(** The primary key is kept by the one statement that inserts. *)
Lemma enqueue_job_unique_ids (cmd : string) (timeout prio : Z)
    (next_run : option string) (w : world) :
  unique_ids (jobs w) ->
  unique_ids (jobs (world_after (enqueue_job cmd timeout prio next_run) w)).
Proof.
  intros Hu. unfold world_after. rewrite enqueue_job_unfold.
  unfold uuid4, utcnow, sql_insert. cbv zeta. cbn [fst snd clock reads sys].
  destruct (has_id _ (jobs w)) eqn:Hid; cbn [fst snd].
  - exact Hu.
  - change (jobs (with_jobs ?x _)) with x. unfold unique_ids.
    rewrite map_app. cbn [map id].
    apply NoDup_app_remove_l with (l := @nil string). cbn [app].
    assert (Hnot : ~ In (Text.slice_to 8 (uuid4_hex (sys w) (uuids w)))
                        (map id (jobs w))).
    { intros Hin. apply has_id_spec in Hin. cbn [id] in Hid.
      rewrite Hid in Hin. discriminate Hin. }
    revert Hnot. generalize (Text.slice_to 8 (uuid4_hex (sys w) (uuids w))).
    intros i Hnot. unfold unique_ids in Hu.
    induction (map id (jobs w)) as [|x l IH]; cbn [app].
    + constructor; [intros []|constructor].
    + inversion Hu as [|? ? Hx Hl]; subst. constructor.
      * rewrite in_app_iff. intros [H|[H|[]]]; [contradiction|].
        subst. apply Hnot. left. reflexivity.
      * apply IH; auto. intros H. apply Hnot. right. exact H.
Qed.

Lemma run_command_jobs (cmd : string) (timeout : Z) (w : world) :
  jobs (world_after (run_command cmd timeout) w) = jobs w.
Proof.
  unfold world_after, run_command.
  destruct (subprocess_run (sys w) cmd timeout (clock w)). reflexivity.
Qed.

(** C10.  When the claimed job's command returns a non-zero exit code and
    both streams are empty, the loop hands the text "Unknown error" to
    [update_job_failure], and the row of the job ends with
    [last_output = "Unknown error"]; with exit code 0 and both streams
    empty it hands the empty text to [update_job_success] and
    [last_output] is the empty text. *)
Theorem empty_output_of_failure_is_unknown_error (w : world)
    (poll_interval start : Q) (c : Snapshot.t) (code : Z) :
  result_of claim_one_job w = Some c ->
  let w1 := world_after claim_one_job w in
  let run := run_command (Snapshot.command c) (Snapshot.timeout_seconds c) in
  result_of run w1 = (code, "", "") ->
  let w2 := world_after run w1 in
  let duration := (result_of time_time w2 - start)%Q in
  let w3 := world_after time_time w2 in
  let w' := world_after (worker_iteration poll_interval start) w in
  (exists r, In r (jobs w') /\ id r = Snapshot.id c) /\
  (code <> 0 ->
   w' = world_after (time_sleep (2 # 10))
          (world_after (update_job_failure c "Unknown error" duration) w3) /\
   forall r, In r (jobs w') -> id r = Snapshot.id c ->
             last_output r = Some "Unknown error") /\
  (code = 0 ->
   w' = world_after (time_sleep (2 # 10))
          (world_after (update_job_success (Snapshot.id c) "" duration) w3) /\
   forall r, In r (jobs w') -> id r = Snapshot.id c ->
             last_output r = Some "").
Proof.
  intros Hclaim w1 run Hrun w2 duration w3 w'.
  assert (Hids3 : map id (jobs w3) = map id (jobs w)).
  { subst w3 w2 w1 run. unfold time_time, bind, utcnow, ret, world_after at 1.
    cbn [fst snd jobs]. rewrite run_command_jobs. apply claim_one_job_ids. }
  assert (Hin : In (Snapshot.id c) (map id (jobs w))).
  { unfold result_of in Hclaim. rewrite claim_one_job_unfold in Hclaim.
    destruct (now_iso w) as [now w0].
    destruct (claim_select now (jobs w)) as [c'|] eqn:Hsel.
    - destruct (now_iso w0) as [l w00]. destruct (now_iso w00).
      cbn [fst] in Hclaim. inversion Hclaim; subst c'.
      destruct (claim_select_some _ _ _ Hsel) as [r [Hr [Hs _]]].
      rewrite <- Hs. apply in_map_iff. exists r. auto.
    - discriminate Hclaim. }
  assert (Hw' : w' = world_after (time_sleep (2 # 10))
            (world_after
               (if code =? 0
                then update_job_success (Snapshot.id c) "" duration
                else update_job_failure c "Unknown error" duration) w3)).
  { subst w' duration w3 w2 w1 run.
    unfold world_after at 1. rewrite worker_iteration_unfold.
    unfold result_of, world_after in *.
    destruct (claim_one_job w) as [claimed w1]. cbn [fst snd] in *.
    subst claimed.
    destruct (run_command _ _ w1) as [r w2]. cbn [fst snd] in *. subst r.
    destruct (time_time w2) as [now w3]. cbn [fst snd]. reflexivity. }
  assert (Hidsend : map id (jobs w') = map id (jobs w)).
  { rewrite Hw'. unfold time_sleep, world_after at 1. cbn [snd advance jobs].
    destruct (code =? 0).
    - rewrite update_job_success_ids. exact Hids3.
    - rewrite update_job_failure_ids. exact Hids3. }
  split; [|split].
  - rewrite <- Hidsend in Hin. apply in_map_iff in Hin.
    destruct Hin as [r [E Hr]]. exists r. auto.
  - intros Hcode. assert (E : (code =? 0) = false) by (apply Z.eqb_neq; exact Hcode).
    rewrite E in Hw'. split; [exact Hw'|].
    rewrite Hw'. intros r Hr Hid.
    unfold time_sleep, world_after at 1 in Hr. cbn [snd advance jobs] in Hr.
    unfold world_after in Hr. rewrite update_job_failure_unfold in Hr.
    cbv zeta in Hr. destruct (now_iso w3) as [n3 w4]. destruct (utcnow w4).
    cbn [fst snd] in Hr. change (jobs (with_jobs ?x _)) with x in Hr.
    apply sql_update_in in Hr. destruct Hr as [r0 [_ Er]].
    destruct (String.eqb (id r0) (Snapshot.id c)) eqn:Hr0.
    + subst r.
      destruct (Snapshot.max_retries c <? Snapshot.attempts c + 1); reflexivity.
    + subst r. apply String.eqb_neq in Hr0. contradiction.
  - intros Hcode. subst code. cbn [Z.eqb] in Hw'. split; [exact Hw'|].
    rewrite Hw'. intros r Hr Hid.
    unfold time_sleep, world_after at 1 in Hr. cbn [snd advance jobs] in Hr.
    unfold world_after in Hr. rewrite update_job_success_unfold in Hr.
    destruct (now_iso w3) as [n3 w4].
    cbn [fst snd] in Hr. change (jobs (with_jobs ?x _)) with x in Hr.
    apply sql_update_in in Hr. destruct Hr as [r0 [_ Er]].
    destruct (String.eqb (id r0) (Snapshot.id c)) eqn:Hr0.
    + subst r. reflexivity.
    + subst r. apply String.eqb_neq in Hr0. contradiction.
Qed.

Lemma empty_output_of_failure_is_unknown_error_witness :
  let w := Demo.world_of [Demo.failing] in
  let c := snapshot Demo.failing in
  result_of claim_one_job w = Some c /\
  result_of (run_command (Snapshot.command c) (Snapshot.timeout_seconds c))
    (world_after claim_one_job w) = (1, "", "") /\
  forall r, In r (jobs (world_after (worker_iteration 1 0) w)) ->
            id r = Snapshot.id c -> last_output r = Some "Unknown error".
Proof.
  cbv zeta. split; [reflexivity|]. split; [reflexivity|].
  pose proof (empty_output_of_failure_is_unknown_error
                (Demo.world_of [Demo.failing]) 1 0 (snapshot Demo.failing) 1
                eq_refl eq_refl) as H.
  cbv zeta in H. destruct H as [_ [Hfail _]].
  destruct Hfail as [_ Hrow]; [discriminate|]. exact Hrow.
Defined.

(** What one pass records as [duration_seconds]: the clock read after the
    command returned, minus the [start] taken before the loop. *)
Lemma worker_iteration_duration (w : world) (poll_interval start : Q)
    (c : Snapshot.t) :
  result_of claim_one_job w = Some c ->
  let w1 := world_after claim_one_job w in
  let w2 :=
    world_after
      (run_command (Snapshot.command c) (Snapshot.timeout_seconds c)) w1 in
  let w' := world_after (worker_iteration poll_interval start) w in
  clock w2
  = clock w1
    + snd (subprocess_run (sys w1) (Snapshot.command c)
             (Snapshot.timeout_seconds c) (clock w1)) /\
  forall r, In r (jobs w') -> id r = Snapshot.id c ->
    duration_seconds r
    = Some (Time.epoch_seconds (clock w2 + drift (sys w2) (reads w2))%Z
            - start)%Q.
Proof.
  intros Hclaim w1 w2 w'. split.
  - subst w2. unfold world_after at 1, run_command.
    destruct (subprocess_run (sys w1) _ _ (clock w1)). reflexivity.
  - subst w' w2 w1. unfold world_after at 1. rewrite worker_iteration_unfold.
    unfold result_of, world_after in *.
    destruct (claim_one_job w) as [claimed w1]. cbn [fst snd] in *.
    subst claimed.
    destruct (run_command _ _ w1) as [[[code out] err] w2]. cbn [fst snd].
    unfold time_time, bind, utcnow, ret. cbn [fst snd].
    set (w3 := mkWorld _ _ _ _ _ _).
    unfold time_sleep. cbn [snd advance jobs].
    intros r Hr Hid. destruct (code =? 0).
    + rewrite update_job_success_unfold in Hr. destruct (now_iso w3).
      cbn [fst snd] in Hr. change (jobs (with_jobs ?x _)) with x in Hr.
      apply sql_update_in in Hr. destruct Hr as [r0 [_ Er]].
      destruct (String.eqb (id r0) (Snapshot.id c)) eqn:Hr0.
      * subst r. reflexivity.
      * subst r. apply String.eqb_neq in Hr0. contradiction.
    + rewrite update_job_failure_unfold in Hr. cbv zeta in Hr.
      destruct (now_iso w3) as [n3 w4]. destruct (utcnow w4).
      cbn [fst snd] in Hr. change (jobs (with_jobs ?x _)) with x in Hr.
      apply sql_update_in in Hr. destruct Hr as [r0 [_ Er]].
      destruct (String.eqb (id r0) (Snapshot.id c)) eqn:Hr0.
      * subst r.
        destruct (Snapshot.max_retries c <? Snapshot.attempts c + 1);
          reflexivity.
      * subst r. apply String.eqb_neq in Hr0. contradiction.
Qed.

(** C6, on the code.  A worker runs two jobs, each of which executes for
    exactly two seconds.  The first is recorded with 2.004 s; the second,
    whose execution also lasted two seconds, is recorded with 4.209 s:
    the time since the worker loop started, not the time its execution
    took. *)
Theorem duration_counts_from_loop_start :
  let w' := world_after (worker_loop 2 1) (Demo.world_of [Demo.high; Demo.low]) in
  (forall cmd t,
     prefix "echo " cmd = true ->
     snd (subprocess_run Demo.machine cmd 30 t) = 2000000) /\
  exists r d,
    nth_error (jobs w') 1 = Some r /\
    command r = "echo LOW" /\ state r = completed /\
    duration_seconds r = Some d /\
    (d == 4209 # 1000)%Q /\ ~ (d == 2)%Q.
Proof.
  cbv zeta. split.
  - intros cmd t H. cbn. rewrite H. reflexivity.
  - eexists. eexists. split; [vm_compute; reflexivity|].
    split; [reflexivity|]. split; [reflexivity|].
    split; [reflexivity|]. split.
    + vm_compute. reflexivity.
    + intros H. vm_compute in H. discriminate H.
Qed.

(** ** Worked values *)

Example isoformat_whole_second :
  Time.isoformat 1700000000000000 = "2023-11-14T22:13:20".
Proof. vm_compute. reflexivity. Qed.

Example isoformat_fraction :
  Time.isoformat 1700000000500000 = "2023-11-14T22:13:20.500000".
Proof. vm_compute. reflexivity. Qed.

Example isoformat_leap_day :
  Time.isoformat 1709251199000001 = "2024-02-29T23:59:59.000001".
Proof. vm_compute. reflexivity. Qed.

(** The [now] of [enqueue_job] has the form of [now_iso()]. *)
Example enqueue_now_form :
  Text.replace "+00:00" "Z" (Time.isoformat_utc 1700000000500000)
  = Time.isoformat 1700000000500000 ++ "Z".
Proof. vm_compute. reflexivity. Qed.

Example backoff_after_third_failure :
  Time.timedelta_seconds (Qpower 2 3) = 8 * Time.us_per_second.
Proof. vm_compute. reflexivity. Qed.

(** Scenario 3 of the specification: LOW (priority 1) is enqueued before
    HIGH (priority 10); the first claim takes HIGH. *)
Example priority_scenario :
  option_map Snapshot.command
    (result_of claim_one_job (Demo.world_of [Demo.low; Demo.high]))
  = Some "echo HIGH".
Proof. vm_compute. reflexivity. Qed.

(** Scenario 2: with [max_retries = 3] the fourth failure makes the job
    dead with [attempts = 4]. *)
Example dlq_scenario :
  let w := world_after (worker_loop 40 1) (Demo.world_of [Demo.failing]) in
  map (fun j => (state j, attempts j, last_error j, last_output j)) (jobs w)
  = [(dead, 4, Some "Max retries exceeded", Some "Unknown error")].
Proof. vm_compute. reflexivity. Qed.

(** The text order of two timestamps follows the instants only when both
    carry a fraction or both do not: the text of a whole second sorts
    after every fractional text of the same second. *)
Example text_order_of_whole_second :
  let whole := Time.isoformat 1735732800000000 ++ "Z" in
  let later := Time.isoformat 1735732800500000 ++ "Z" in
  whole = "2025-01-01T12:00:00Z" /\
  later = "2025-01-01T12:00:00.500000Z" /\
  Text.text_lt later whole = true.
Proof. vm_compute. repeat split; reflexivity. Qed.

(* ================================================================== *)
(** * Further properties of the code *)

(** ** Ordered results *)

Section OrderedResult.
Variable le : job -> job -> bool.
Hypothesis le_total : forall a b, le a b = true \/ le b a = true.




End OrderedResult.

(** ** DLQ re-arm *)

Lemma retry_dead_job_unfold (job_id : string) (w : world) :
  retry_dead_job job_id w =
  match
    fetchone
      (sql_select
         (fun j => String.eqb (id j) job_id && job_state_eqb (state j) dead)
         (jobs w))
  with
  | None => (false, w)
  | Some _ =>
      let (now, w1) := now_iso w in
      (true,
       with_jobs
         (fst (sql_update (fun j => String.eqb (id j) job_id) (rearm_set now)
                 (jobs w)))
         w1)
  end.
Proof.
  unfold retry_dead_job, bind, query. cbn [fst snd].
  destruct (fetchone _); reflexivity.
Qed.

Lemma fetchone_select_some (p : job -> bool) (t : table) :
  (exists r, fetchone (sql_select p t) = Some r) <->
  (exists r, In r t /\ p r = true).
Proof.
  unfold fetchone, sql_select. split.
  - intros [r H]. destruct (filter p t) as [|x l] eqn:E; [discriminate|].
    inversion H; subst x. exists r. apply filter_In. rewrite E. left. auto.
  - intros [r [Hin Hp]].
    assert (H : In r (filter p t)) by (apply filter_In; auto).
    destruct (filter p t) as [|x l]; [contradiction|]. exists x. reflexivity.
Qed.

(** X1.  [retry_dead_job] answers [True] exactly when a dead row has the id.
    Then every row of that id becomes pending with [attempts = 0] and
    [next_run_at], [last_error] cleared, [updated_at] set, and its lease
    columns, output, duration and fixed columns as they were; every other
    row is unchanged.  When it answers [False] the world is unchanged. *)
Theorem retry_dead_job_rearms (w : world) (job_id : string) :
  let ok := result_of (retry_dead_job job_id) w in
  let w' := world_after (retry_dead_job job_id) w in
  let now := result_of now_iso w in
  (ok = true <-> exists r, In r (jobs w) /\ id r = job_id /\ state r = dead) /\
  (ok = false -> w' = w) /\
  (ok = true ->
   forall n r, nth_error (jobs w) n = Some r ->
     (id r <> job_id -> nth_error (jobs w') n = Some r) /\
     (id r = job_id ->
      exists r',
        nth_error (jobs w') n = Some r' /\
        state r' = pending /\ attempts r' = 0 /\
        next_run_at r' = None /\ last_error r' = None /\
        updated_at r' = now /\
        locked_by r' = locked_by r /\ locked_at r' = locked_at r /\
        last_output r' = last_output r /\
        duration_seconds r' = duration_seconds r /\
        fixed_columns r' = fixed_columns r)).
Proof.
  cbv zeta. unfold result_of, world_after. rewrite retry_dead_job_unfold.
  set (p := fun j => String.eqb (id j) job_id && job_state_eqb (state j) dead).
  assert (Hp : forall r, p r = true <-> id r = job_id /\ state r = dead).
  { intros r. unfold p. rewrite andb_true_iff, String.eqb_eq, job_state_eqb_eq.
    tauto. }
  pose proof (fetchone_select_some p (jobs w)) as Hf.
  destruct (fetchone (sql_select p (jobs w))) as [d|] eqn:Hd.
  - destruct (now_iso w) as [now w1]. cbn [fst snd].
    split; [|split].
    + split; [|reflexivity]. intros _.
      destruct (proj1 Hf (ex_intro _ d eq_refl)) as [r [Hin Hr]].
      exists r. apply Hp in Hr. tauto.
    + discriminate.
    + intros _ n r Hn. change (jobs (with_jobs ?x _)) with x.
      rewrite sql_update_nth, Hn. cbn [option_map]. split.
      * intros Hne. apply String.eqb_neq in Hne. rewrite Hne. reflexivity.
      * intros He. rewrite He, String.eqb_refl.
        eexists. split; [reflexivity|]. cbn. repeat split; reflexivity.
  - cbn [fst snd]. split; [|split].
    + split; [discriminate|]. intros [r [Hin [Hi Hs]]]. exfalso.
      destruct (proj2 Hf) as [x Hx]; [|discriminate Hx].
      exists r. split; [exact Hin|]. apply Hp. auto.
    + reflexivity.
    + discriminate.
Qed.

Lemma retry_dead_job_rearms_witness :
  let w := world_after (worker_loop 40 1) (Demo.world_of [Demo.failing]) in
  let w' := world_after (retry_dead_job "e0000005") w in
  result_of (retry_dead_job "e0000005") w = true /\
  exists r',
    nth_error (jobs w') 0 = Some r' /\ state r' = pending /\ attempts r' = 0.
Proof.
  cbv zeta.
  pose proof (retry_dead_job_rearms
                (world_after (worker_loop 40 1) (Demo.world_of [Demo.failing]))
                "e0000005") as H.
  cbv zeta in H. destruct H as [_ [_ Hrows]].
  assert (Hok : result_of (retry_dead_job "e0000005")
                  (world_after (worker_loop 40 1)
                     (Demo.world_of [Demo.failing])) = true)
    by (vm_compute; reflexivity).
  split; [exact Hok|].
  assert (Hn : nth_error
                 (jobs (world_after (worker_loop 40 1)
                          (Demo.world_of [Demo.failing]))) 0
               = Some (nth 0 (jobs (world_after (worker_loop 40 1)
                                      (Demo.world_of [Demo.failing])))
                         Demo.failing))
    by (vm_compute; reflexivity).
  destruct (Hrows Hok _ _ Hn) as [_ Hsame].
  destruct Hsame as [r' [H1 [H2 [H3 _]]]]; [vm_compute; reflexivity|].
  exists r'. repeat split; assumption.
Defined.

(** ** Enqueue: the id collision *)



(** ** The config table *)

Lemma config_lookup_app (k k' v : string) (c : config_table) :
  config_lookup k (c ++ [(k', v)])%list
  = match config_lookup k c with
    | Some x => Some x
    | None => if String.eqb k' k then Some v else None
    end.
Proof.
  induction c as [|[a b] c IH]; simpl.
  - reflexivity.
  - destruct (String.eqb a k); [reflexivity|exact IH].
Qed.

Lemma config_lookup_without (k k' : string) (c : config_table) :
  config_lookup k (filter (fun kv => negb (String.eqb (fst kv) k')) c)
  = if String.eqb k' k then None else config_lookup k c.
Proof.
  induction c as [|[a b] c IH]; simpl.
  - destruct (String.eqb k' k); reflexivity.
  - destruct (String.eqb a k') eqn:Hak; simpl.
    + apply String.eqb_eq in Hak. subst a. rewrite IH.
      destruct (String.eqb k' k); reflexivity.
    + destruct (String.eqb a k) eqn:Hk; [|exact IH].
      apply String.eqb_eq in Hk. subst a.
      rewrite String.eqb_sym, Hak. reflexivity.
Qed.

Lemma config_lookup_none (k : string) (c : config_table) :
  config_lookup k c = None <-> ~ In k (map fst c).
Proof.
  induction c as [|[a b] c IH]; simpl.
  - tauto.
  - destruct (String.eqb a k) eqn:E.
    + apply String.eqb_eq in E. split; [discriminate|]. intros H. tauto.
    + apply String.eqb_neq in E. rewrite IH. tauto.
Qed.

(** X3.  [set_config] then [get_config]: the key holds the new value, every
    other key holds what it held, the [jobs] table is untouched, and the
    keys stay distinct (the PRIMARY KEY of [config]). *)
Theorem set_config_then_get (w : world) (key value : string) :
  let w' := world_after (set_config key value) w in
  let c' := result_of get_config w' in
  config_lookup key c' = Some value /\
  (forall k, k <> key -> config_lookup k c' = config_lookup k (config w)) /\
  jobs w' = jobs w /\
  (NoDup (map fst (config w)) -> NoDup (map fst c')).
Proof.
  cbv zeta. unfold world_after, result_of, set_config, get_config.
  cbn [fst snd config with_config jobs]. unfold insert_or_replace.
  split; [|split; [|split]].
  - rewrite config_lookup_app, config_lookup_without, String.eqb_refl.
    reflexivity.
  - intros k Hk. rewrite config_lookup_app, config_lookup_without.
    apply String.eqb_neq in Hk. rewrite String.eqb_sym in Hk. rewrite Hk.
    destruct (config_lookup k (config w)); reflexivity.
  - reflexivity.
  - intros Hnd. rewrite map_app. cbn [map fst].
    set (f := fun kv : string * string => negb (String.eqb (fst kv) key)).
    assert (Hnot : ~ In key (map fst (filter f (config w)))).
    { rewrite in_map_iff. intros [[a b] [E H]]. apply filter_In in H.
      destruct H as [_ H]. unfold f in H. cbn in E, H. subst a.
      rewrite String.eqb_refl in H. discriminate H. }
    assert (Hf : NoDup (map fst (filter f (config w)))).
    { clear Hnot. induction (config w) as [|[a b] c IH]; simpl.
      - constructor.
      - inversion Hnd as [|? ? Ha Hc]; subst.
        destruct (f (a, b)); simpl; [|apply IH; exact Hc].
        constructor; [|apply IH; exact Hc].
        intros Hin. apply Ha. rewrite in_map_iff in *.
        destruct Hin as [x [Ex Hx]]. exists x. split; [exact Ex|].
        apply filter_In in Hx. tauto. }
    revert Hnot Hf. generalize (map fst (filter f (config w))).
    intros l Hnot Hl. induction l as [|x l IH]; simpl.
    + constructor; [intros []|constructor].
    + inversion Hl as [|? ? Hx Hl']; subst. constructor.
      * rewrite in_app_iff. intros [H|[H|[]]]; [contradiction|].
        subst. apply Hnot. left. reflexivity.
      * apply IH; auto. intros H. apply Hnot. right. exact H.
Qed.

Lemma set_config_then_get_witness :
  let w' := world_after (set_config "max_retries" "9") Demo.store in
  NoDup (map fst (config Demo.store)) /\
  NoDup (map fst (result_of get_config w')) /\
  config_lookup "max_retries" (result_of get_config w') = Some "9" /\
  config_lookup "base_backoff" (result_of get_config w') = Some "2".
Proof.
  cbv zeta.
  assert (Hnd : NoDup (map fst (config Demo.store))).
  { simpl. repeat (constructor; [simpl; intuition discriminate|]).
    constructor. }
  pose proof (set_config_then_get Demo.store "max_retries" "9") as H.
  cbv zeta in H. destruct H as [H1 [H2 [_ H4]]].
  split; [exact Hnd|]. split; [exact (H4 Hnd)|]. split; [exact H1|].
  rewrite (H2 "base_backoff"); [reflexivity|discriminate].
Defined.

Lemma config_lookup_insert_or_ignore (k d x : string) (c : config_table) :
  config_lookup x (insert_or_ignore k d c)
  = match config_lookup x c with
    | Some v => Some v
    | None => if String.eqb k x then Some d else None
    end.
Proof.
  unfold insert_or_ignore. destruct (config_lookup k c) as [v|] eqn:E.
  - destruct (config_lookup x c) eqn:Ex; [reflexivity|].
    destruct (String.eqb k x) eqn:Hk; [|reflexivity].
    apply String.eqb_eq in Hk. subst x. congruence.
  - apply config_lookup_app.
Qed.

(** X4.  [init_config] gives each of the two keys its default only where the
    key is absent, leaves every other key alone, and a second call
    changes nothing. *)
Theorem init_config_keeps_existing (w : world) :
  let w' := world_after init_config w in
  let default (k d : string) :=
    match config_lookup k (config w) with Some v => v | None => d end in
  config_lookup "max_retries" (config w') = Some (default "max_retries" "3") /\
  config_lookup "base_backoff" (config w') = Some (default "base_backoff" "2") /\
  (forall k, k <> "max_retries" -> k <> "base_backoff" ->
             config_lookup k (config w') = config_lookup k (config w)) /\
  world_after init_config w' = w'.
Proof.
  cbv zeta. unfold world_after, init_config. cbn [snd config with_config].
  assert (H1 : config_lookup "max_retries"
                 (insert_or_ignore "base_backoff" "2"
                    (insert_or_ignore "max_retries" "3" (config w)))
               = Some match config_lookup "max_retries" (config w) with
                      | Some v => v
                      | None => "3"
                      end).
  { rewrite !config_lookup_insert_or_ignore. cbn [String.eqb Ascii.eqb Bool.eqb].
    destruct (config_lookup "max_retries" (config w)); reflexivity. }
  assert (H2 : config_lookup "base_backoff"
                 (insert_or_ignore "base_backoff" "2"
                    (insert_or_ignore "max_retries" "3" (config w)))
               = Some match config_lookup "base_backoff" (config w) with
                      | Some v => v
                      | None => "2"
                      end).
  { rewrite !config_lookup_insert_or_ignore. cbn [String.eqb Ascii.eqb Bool.eqb].
    destruct (config_lookup "base_backoff" (config w)); reflexivity. }
  split; [exact H1|]. split; [exact H2|]. split.
  - intros k Hm Hb. rewrite !config_lookup_insert_or_ignore.
    apply String.eqb_neq in Hm, Hb.
    rewrite (String.eqb_sym "max_retries" k), Hm.
    rewrite (String.eqb_sym "base_backoff" k), Hb.
    destruct (config_lookup k (config w)); reflexivity.
  - set (c1 := insert_or_ignore "base_backoff" "2"
                 (insert_or_ignore "max_retries" "3" (config w))) in *.
    assert (E1 : insert_or_ignore "max_retries" "3" c1 = c1)
      by (unfold insert_or_ignore at 1; rewrite H1; reflexivity).
    rewrite E1.
    assert (E2 : insert_or_ignore "base_backoff" "2" c1 = c1)
      by (unfold insert_or_ignore at 1; rewrite H2; reflexivity).
    rewrite E2. reflexivity.
Qed.

Lemma init_config_keeps_existing_witness :
  let w := world_after (set_config "max_retries" "9") (Demo.world_of []) in
  let w' := world_after init_config w in
  config_lookup "max_retries" (config w') = Some "9" /\
  config_lookup "poll_interval" (config w') = None /\
  world_after init_config w' = w'.
Proof.
  cbv zeta.
  pose proof (init_config_keeps_existing
                (world_after (set_config "max_retries" "9")
                   (Demo.world_of []))) as H.
  cbv zeta in H. destruct H as [H1 [_ [H3 H4]]].
  split; [exact H1|]. split; [|exact H4].
  rewrite (H3 "poll_interval"); [reflexivity|discriminate|discriminate].
Defined.

(** ** Counting and listing *)

Lemma count_states_total (t : table) :
  (count_state pending t + count_state processing t
   + count_state completed t + count_state dead t)%nat = List.length t.
Proof.
  unfold count_state. induction t as [|j t IH]; simpl.
  - reflexivity.
  - destruct (state j); simpl; lia.
Qed.

Lemma count_state_positive (s : job_state) (t : table) :
  count_state s t <> O <-> exists r, In r t /\ state r = s.
Proof.
  unfold count_state. split.
  - intros H. destruct (filter _ t) as [|r l] eqn:E; [contradiction|].
    exists r. assert (Hr : In r (filter (fun j => job_state_eqb (state j) s) t))
      by (rewrite E; left; reflexivity).
    apply filter_In in Hr. rewrite job_state_eqb_eq in Hr. exact Hr.
  - intros [r [Hin Hs]] H.
    assert (Hr : In r (filter (fun j => job_state_eqb (state j) s) t))
      by (apply filter_In; rewrite job_state_eqb_eq; auto).
    destruct (filter _ t); [contradiction|discriminate H].
Qed.

(** X5.  [get_job_counts]: looking a state up in the dict, with 0 for a
    missing key, gives the number of rows in that state; a state is a key
    of the dict exactly when some row is in it; a text that names no
    state is looked up as 0; the counts add up to the number of rows. *)
Theorem get_job_counts_lookup (w : world) :
  let counts := result_of get_job_counts w in
  (forall s, counts_get counts (state_text s) = count_state s (jobs w)) /\
  (forall s, In s (map fst counts) <-> exists r, In r (jobs w) /\ state r = s) /\
  (forall st, (forall s, state_text s <> st) -> counts_get counts st = O) /\
  (count_state pending (jobs w) + count_state processing (jobs w)
   + count_state completed (jobs w) + count_state dead (jobs w))%nat
  = List.length (jobs w).
Proof.
  cbv zeta. unfold result_of, get_job_counts, query. cbn [fst].
  set (t := jobs w). unfold group_by_state. cbn [map filter snd].
  split; [|split; [|split]].
  - intros s.
    destruct (Nat.eqb_spec (count_state completed t) 0) as [E1|E1];
      destruct (Nat.eqb_spec (count_state dead t) 0) as [E2|E2];
      destruct (Nat.eqb_spec (count_state pending t) 0) as [E3|E3];
      destruct (Nat.eqb_spec (count_state processing t) 0) as [E4|E4];
      destruct s; cbn; congruence.
  - intros s. rewrite <- count_state_positive.
    destruct (Nat.eqb_spec (count_state completed t) 0) as [E1|E1];
      destruct (Nat.eqb_spec (count_state dead t) 0) as [E2|E2];
      destruct (Nat.eqb_spec (count_state pending t) 0) as [E3|E3];
      destruct (Nat.eqb_spec (count_state processing t) 0) as [E4|E4];
      destruct s; cbn; intuition (try discriminate; try congruence).
  - intros st Hst.
    assert (H : forall s, String.eqb (state_text s) st = false)
      by (intros s; apply String.eqb_neq; apply Hst).
    destruct (Nat.eqb (count_state completed t) 0);
      destruct (Nat.eqb (count_state dead t) 0);
      destruct (Nat.eqb (count_state pending t) 0);
      destruct (Nat.eqb (count_state processing t) 0);
      cbn [negb counts_get]; rewrite ?H; reflexivity.
  - apply count_states_total.
Qed.

Lemma get_job_counts_lookup_witness :
  let w := world_after (worker_loop 1 1) Demo.store in
  In completed (map fst (result_of get_job_counts w)) /\
  counts_get (result_of get_job_counts w) "completed" = 1%nat /\
  counts_get (result_of get_job_counts w) "dead" = O /\
  counts_get (result_of get_job_counts w) "paused" = O.
Proof.
  cbv zeta.
  pose proof (get_job_counts_lookup (world_after (worker_loop 1 1) Demo.store))
    as H.
  cbv zeta in H. destruct H as [H1 [H2 [H3 _]]].
  split; [|split; [|split]].
  - refine (proj2 (H2 _) _). eexists.
    split; [vm_compute; right; left; reflexivity|reflexivity].
  - etransitivity; [exact (H1 completed)|]. vm_compute. reflexivity.
  - etransitivity; [exact (H1 dead)|]. vm_compute. reflexivity.
  - apply H3. intros []; discriminate.
Defined.



Lemma Forall2_map_right {A B} (f : A -> B) (P : A -> B -> Prop) (l : list A) :
  (forall a, In a l -> P a (f a)) -> Forall2 P l (map f l).
Proof.
  induction l as [|a l IH]; simpl; intros H; constructor.
  - apply H. left. reflexivity.
  - apply IH. intros x Hx. apply H. right. exact Hx.
Qed.





(** ** The commands of the command line *)

Lemma counts_get_state (s : job_state) (t : table) :
  counts_get (group_by_state t) (state_text s) = count_state s t.
Proof.
  unfold group_by_state. cbn [map filter snd].
  destruct (Nat.eqb_spec (count_state completed t) 0) as [E1|E1];
    destruct (Nat.eqb_spec (count_state dead t) 0) as [E2|E2];
    destruct (Nat.eqb_spec (count_state pending t) 0) as [E3|E3];
    destruct (Nat.eqb_spec (count_state processing t) 0) as [E4|E4];
    destruct s; cbn; congruence.
Qed.

(** X8.  [status] prints, between its header and a closing empty line, one
    line for each of the four states, in the order pending, processing,
    completed, dead, each with the number of rows in that state: 0 where
    the dict of [get_job_counts] has no such key. *)
Theorem status_prints_counts (w : world) :
  let n s := Text.str_int (Z.of_nat (count_state s (jobs w))) in
  result_of status w
  = {| echoed :=
         [newline ++ "Job Status Summary";
          "  pending      : " ++ n pending;
          "  processing   : " ++ n processing;
          "  completed    : " ++ n completed;
          "  dead         : " ++ n dead;
          ""];
       raised := None |}
  /\ world_after status w = w.
Proof.
  cbv zeta. unfold result_of, world_after, status, bind, get_job_counts, query, ret.
  cbn [fst snd map app]. unfold status_line.
  pose proof (counts_get_state pending (jobs w)) as H1.
  pose proof (counts_get_state processing (jobs w)) as H2.
  pose proof (counts_get_state completed (jobs w)) as H3.
  pose proof (counts_get_state dead (jobs w)) as H4.
  cbn [state_text] in H1, H2, H3, H4. rewrite H1, H2, H3, H4.
  split; reflexivity.
Qed.

Lemma jobs_in_state_nil (st : string) (t : table) :
  jobs_in_state st t = [] <->
  forall r, In r t -> state_text (state r) <> st.
Proof.
  unfold jobs_in_state, sql_select. split.
  - intros E r Hin Hst. apply order_by_nil in E.
    assert (H : In r (filter (fun j => String.eqb (state_text (state j)) st) t))
      by (apply filter_In; split; [exact Hin|apply String.eqb_eq; exact Hst]).
    rewrite E in H. exact H.
  - intros H.
    destruct (order_by created_order (filter _ t)) as [|x l] eqn:E;
      [reflexivity|].
    exfalso.
    assert (Hx : In x (order_by created_order
                         (filter (fun j => String.eqb (state_text (state j)) st)
                            t)))
      by (rewrite E; left; reflexivity).
    apply order_by_in in Hx. apply filter_In in Hx. destruct Hx as [Hin Hst].
    apply String.eqb_eq in Hst. exact (H x Hin Hst).
Qed.

(** X9.  The [list] command.  When no job is in the state it prints
    "No jobs found in state '...'".  When at least one is, it prints the
    header and then raises IndexError while building the first line,
    because the line reads [next_run_at], a column that
    [list_jobs_by_state] does not select: no job is ever listed. *)
Theorem list_jobs_never_lists (w : world) (st : string) :
  let out := result_of (list_jobs st) w in
  ((forall r, In r (jobs w) -> state_text (state r) <> st) ->
   out = {| echoed := ["No jobs found in state '" ++ st ++ "'"];
            raised := None |}) /\
  ((exists r, In r (jobs w) /\ state_text (state r) = st) ->
   out = {| echoed := [newline ++ "Jobs in state '" ++ st ++ "':"];
            raised := Some IndexError |}).
Proof.
  cbv zeta. unfold result_of, list_jobs, bind, list_jobs_by_state, query, ret.
  cbn [fst snd]. split.
  - intros H. apply jobs_in_state_nil in H. rewrite H. reflexivity.
  - intros [r [Hin Hst]].
    destruct (jobs_in_state st (jobs w)) as [|j js] eqn:E.
    + exfalso. exact (proj1 (jobs_in_state_nil st (jobs w)) E r Hin Hst).
    + reflexivity.
Qed.

Lemma list_jobs_never_lists_witness :
  (exists r, In r (jobs Demo.store) /\ state_text (state r) = "pending") /\
  raised (result_of (list_jobs "pending") Demo.store) = Some IndexError /\
  (forall r, In r (jobs Demo.store) -> state_text (state r) <> "dead") /\
  echoed (result_of (list_jobs "dead") Demo.store)
  = ["No jobs found in state 'dead'"].
Proof.
  pose proof (list_jobs_never_lists Demo.store "pending") as Hp.
  pose proof (list_jobs_never_lists Demo.store "dead") as Hd.
  cbv zeta in Hp, Hd.
  assert (H1 : exists r, In r (jobs Demo.store)
                         /\ state_text (state r) = "pending")
    by (exists Demo.low; split; [left; reflexivity|reflexivity]).
  assert (H2 : forall r, In r (jobs Demo.store) ->
                         state_text (state r) <> "dead").
  { intros r [E|[E|[E|[E|[]]]]]; subst r; discriminate. }
  split; [exact H1|]. split; [rewrite (proj2 Hp H1); reflexivity|].
  split; [exact H2|]. rewrite (proj1 Hd H2). reflexivity.
Defined.





(** ** Passes of the worker loop *)

Lemma time_sleep_jobs (s : Q) (w : world) :
  jobs (world_after (time_sleep s) w) = jobs w.
Proof. reflexivity. Qed.

Lemma worker_iteration_pass (poll_interval start : Q) (w : world) :
  pass_step (jobs w)
    (jobs (world_after (worker_iteration poll_interval start) w)).
Proof.
  unfold world_after. rewrite worker_iteration_unfold, claim_one_job_unfold.
  destruct (now_iso w) as [now w0] eqn:Hnow.
  assert (Hj0 : jobs w0 = jobs w).
  { unfold now_iso, bind, utcnow, ret in Hnow. inversion Hnow. reflexivity. }
  destruct (claim_select now (jobs w)) as [c|] eqn:Hsel.
  - destruct (now_iso w0) as [locked w00]. destruct (now_iso w00) as [updated w1'].
    set (w1 := with_jobs _ w1').
    pose proof (run_command_jobs (Snapshot.command c)
                  (Snapshot.timeout_seconds c) w1) as Hrun.
    unfold world_after in Hrun.
    destruct (run_command _ _ w1) as [[[code out] err] w2].
    cbn [snd] in Hrun.
    unfold time_time, bind, utcnow, ret. cbn [fst snd].
    set (w3 := mkWorld _ _ _ _ _ _).
    assert (Hj3 : jobs w3 = jobs w1) by exact Hrun.
    set (dur := (_ - start)%Q).
    set (combined := Text.or_else out "" ++ Text.or_else err "").
    unfold time_sleep. cbn [snd advance jobs].
    assert (Hj1 : jobs w1
                  = fst (sql_update (claim_where (Snapshot.id c))
                           (claim_set (WORKER_ID (sys w)) locked updated)
                           (jobs w))) by reflexivity.
    destruct (code =? 0).
    + unfold world_after. rewrite update_job_success_unfold.
      destruct (now_iso w3) as [n3 w4]. cbn [fst snd].
      change (jobs (with_jobs ?x _)) with x. rewrite Hj3, Hj1.
      eapply pass_run; [exact Hsel|]. constructor.
    + unfold world_after. rewrite update_job_failure_unfold. cbv zeta.
      destruct (now_iso w3) as [n3 w4]. destruct (utcnow w4) as [t4 w5].
      cbn [fst snd]. change (jobs (with_jobs ?x _)) with x. rewrite Hj3, Hj1.
      eapply pass_run; [exact Hsel|].
      destruct (Z.ltb_spec (Snapshot.max_retries c) (Snapshot.attempts c + 1)).
      * apply write_dead. assumption.
      * apply write_retry. assumption.
  - unfold time_sleep. cbn [snd advance jobs]. rewrite Hj0. apply pass_idle.
Qed.

Lemma worker_loop_from_passes (fuel : nat) (poll_interval start : Q)
    (w : world) :
  passes (jobs w)
    (jobs (world_after (worker_loop_from fuel poll_interval start) w)).
Proof.
  revert w. induction fuel as [|k IH]; intros w.
  - constructor 1.
  - unfold world_after. cbn [worker_loop_from].
    unfold bind at 1, stop_flag_exists.
    destruct (stop_flag (sys w) (clock w)).
    + constructor 1.
    + unfold bind.
      pose proof (worker_iteration_pass poll_interval start w) as Hp.
      unfold world_after in Hp.
      destruct (worker_iteration poll_interval start w) as [u w1].
      cbn [snd] in Hp. unfold passes. econstructor 2; [exact Hp|].
      apply (IH w1).
Qed.

Lemma worker_loop_passes (fuel : nat) (poll_interval : Q) (w : world) :
  passes (jobs w) (jobs (world_after (worker_loop fuel poll_interval) w)).
Proof.
  unfold world_after, worker_loop, bind, time_time, bind, utcnow, ret.
  cbn [fst snd].
  match goal with
  | |- passes _ (jobs (snd (worker_loop_from _ _ ?s ?w1))) =>
      exact (worker_loop_from_passes fuel poll_interval s w1)
  end.
Qed.

Lemma outcome_write_fixed (c : Snapshot.t) (F : job -> job) :
  outcome_write c F -> forall j, fixed_columns (F j) = fixed_columns j.
Proof. intros H j. destruct H; reflexivity. Qed.

Lemma sql_update_fixed (p : job -> bool) (s : job -> job) (t : table) :
  (forall j, fixed_columns (s j) = fixed_columns j) ->
  map fixed_columns (fst (sql_update p s t)) = map fixed_columns t.
Proof.
  intros Hs. unfold sql_update. cbn [fst]. rewrite map_map.
  apply map_ext. intros j. destruct (p j); auto.
Qed.

Lemma fixed_columns_ids (t t' : table) :
  map fixed_columns t' = map fixed_columns t -> map id t' = map id t.
Proof.
  intros H.
  assert (E : forall l, map id l
                        = map (fun x : string * string * Z * Q * string * Z * Z =>
                                 fst (fst (fst (fst (fst (fst x))))))
                            (map fixed_columns l)).
  { intros l. rewrite map_map. apply map_ext. reflexivity. }
  rewrite (E t'), (E t), H. reflexivity.
Qed.

Lemma pass_step_fixed (t t' : table) :
  pass_step t t' -> map fixed_columns t' = map fixed_columns t.
Proof.
  intros [|now me locked updated c F Hsel HF]; [reflexivity|].
  rewrite sql_update_fixed by (apply (outcome_write_fixed c); exact HF).
  apply sql_update_fixed. reflexivity.
Qed.

Lemma passes_fixed (t t' : table) :
  passes t t' -> map fixed_columns t' = map fixed_columns t.
Proof.
  intros H. induction H as [|x y z Hxy _ IH]; [reflexivity|].
  rewrite IH. apply pass_step_fixed. exact Hxy.
Qed.

Lemma pass_step_unique_ids (t t' : table) :
  pass_step t t' -> unique_ids t -> unique_ids t'.
Proof.
  intros H Hu. unfold unique_ids.
  rewrite (fixed_columns_ids _ _ (pass_step_fixed _ _ H)). exact Hu.
Qed.

(** Under the primary key a pass changes at most the row it claimed. *)
Lemma pass_step_rows (t t' : table) :
  pass_step t t' -> unique_ids t -> Forall2 row_step t t'.
Proof.
  intros [|now me locked updated c F Hsel HF] Hu.
  - induction t as [|r t IH]; constructor.
    + left. reflexivity.
    + apply IH. inversion Hu; assumption.
  - unfold sql_update. cbn [fst]. rewrite map_map.
    apply Forall2_map_right. intros r Hin.
    destruct (claim_select_some _ _ _ Hsel) as [r0 [Hin0 [Hsnap [Hready _]]]].
    apply claim_ready_spec in Hready. destruct Hready as [Hpend _].
    unfold claim_where.
    destruct (String.eqb (id r) (Snapshot.id c)) eqn:Hid.
    + apply String.eqb_eq in Hid.
      assert (E : r = r0).
      { apply (unique_ids_same_row t); auto.
        rewrite Hid, <- Hsnap. reflexivity. }
      subst r0. rewrite Hpend. cbn [andb job_state_eqb].
      change (id (claim_set me locked updated r)) with (id r).
      apply String.eqb_eq in Hid. rewrite Hid.
      right. split; [exact Hpend|].
      exists F, me, locked, updated. rewrite Hsnap. split; [exact HF|reflexivity].
    + cbn [andb]. rewrite Hid. left. reflexivity.
Qed.

Lemma Forall2_nth_left {A B} (P : A -> B -> Prop) (l : list A) (l' : list B)
    (n : nat) (a : A) :
  Forall2 P l l' -> nth_error l n = Some a ->
  exists b, nth_error l' n = Some b /\ P a b.
Proof.
  intros H. revert n. induction H as [|x y l l' Hxy _ IH]; intros n Hn.
  - destruct n; discriminate Hn.
  - destruct n as [|n]; simpl in *.
    + inversion Hn; subst. exists y. auto.
    + apply IH. exact Hn.
Qed.

Lemma Forall2_in_right {A B} (P : A -> B -> Prop) (l : list A) (l' : list B)
    (b : B) :
  Forall2 P l l' -> In b l' -> exists a, In a l /\ P a b.
Proof.
  intros H. induction H as [|x y l l' Hxy _ IH]; intros Hb.
  - contradiction.
  - destruct Hb as [Hb|Hb].
    + subst. exists x. split; [left; reflexivity|exact Hxy].
    + destruct (IH Hb) as [a [Ha Hp]]. exists a. split; [right|]; assumption.
Qed.

(** Induction over the passes of a loop, carrying the primary key. *)
Lemma passes_invariant (P : table -> Prop) :
  (forall t t', unique_ids t -> P t -> pass_step t t' -> P t') ->
  forall t t', passes t t' -> unique_ids t -> P t -> P t'.
Proof.
  intros Hstep t t' H. induction H as [|x y z Hxy _ IH]; intros Hu Hp.
  - exact Hp.
  - apply IH.
    + apply (pass_step_unique_ids x); assumption.
    + apply (Hstep x); assumption.
Qed.

Lemma row_step_not_pending (r r' : job) :
  row_step r r' -> state r <> pending -> r' = r.
Proof. intros [H|[H _]] Hs; [exact H|contradiction]. Qed.

Lemma row_step_dead_exhausted (r r' : job) :
  row_step r r' -> dead_is_exhausted r -> dead_is_exhausted r'.
Proof.
  intros [H|[Hp [F [me [l [u [HF E]]]]]]] Hd.
  - subst. exact Hd.
  - subst r'. intros Hdead. inversion HF; subst F; cbn in Hdead;
      try discriminate Hdead.
    cbn. split; [|eexists; reflexivity].
    cbn in H. lia.
Qed.




(** X11.  The worker loop never adds or removes a row and never changes the
    [id], [command], [max_retries], [base_backoff], [created_at],
    [timeout_seconds] or [priority] of one, however many passes it makes
    and whatever the commands do. *)
Theorem worker_loop_keeps_fixed_columns (fuel : nat) (poll_interval : Q)
    (w : world) :
  map fixed_columns (jobs (world_after (worker_loop fuel poll_interval) w))
  = map fixed_columns (jobs w).
Proof. apply passes_fixed. apply worker_loop_passes. Qed.

(** X12.  A row that is not pending when the loop starts (processing under
    another lease, completed or dead) is exactly the same row when the
    loop ends: a worker writes only to rows it claimed itself. *)
Theorem worker_loop_leaves_non_pending (fuel : nat) (poll_interval : Q)
    (w : world) (n : nat) (r : job) :
  unique_ids (jobs w) ->
  nth_error (jobs w) n = Some r ->
  state r <> pending ->
  nth_error (jobs (world_after (worker_loop fuel poll_interval) w)) n
  = Some r.
Proof.
  intros Hu Hn Hs.
  apply (passes_invariant (fun t => nth_error t n = Some r))
    with (t := jobs w); auto; [|apply worker_loop_passes].
  intros t t' Hut Ht Hp.
  destruct (Forall2_nth_left _ _ _ _ _ (pass_step_rows _ _ Hp Hut) Ht)
    as [r' [Hr' Hstep]].
  rewrite (row_step_not_pending _ _ Hstep Hs) in Hr'. exact Hr'.
Qed.

Lemma worker_loop_leaves_non_pending_witness :
  unique_ids (jobs Demo.store) /\
  nth_error (jobs Demo.store) 3 = Some Demo.stuck /\
  state Demo.stuck <> pending /\
  nth_error (jobs (world_after (worker_loop 5 1) Demo.store)) 3
  = Some Demo.stuck.
Proof.
  assert (Hs : state Demo.stuck <> pending) by discriminate.
  split; [exact unique_ids_demo_store|]. split; [reflexivity|].
  split; [exact Hs|].
  exact (worker_loop_leaves_non_pending 5 1 Demo.store 3 Demo.stuck
           unique_ids_demo_store eq_refl Hs).
Defined.

(** X13.  If every dead row has [attempts > max_retries] and a [last_error]
    before the loop, the same holds after it: the loop makes a row dead
    only through the failure that exceeds its [max_retries]. *)
Theorem worker_loop_dead_exhausted (fuel : nat) (poll_interval : Q)
    (w : world) :
  unique_ids (jobs w) ->
  (forall r, In r (jobs w) -> dead_is_exhausted r) ->
  forall r,
    In r (jobs (world_after (worker_loop fuel poll_interval) w)) ->
    dead_is_exhausted r.
Proof.
  intros Hu Hd.
  apply (passes_invariant (fun t => forall r, In r t -> dead_is_exhausted r))
    with (t := jobs w); auto; [|apply worker_loop_passes].
  intros t t' Hut Ht Hp r' Hr'.
  destruct (Forall2_in_right _ _ _ _ (pass_step_rows _ _ Hp Hut) Hr')
    as [r [Hr Hstep]].
  apply (row_step_dead_exhausted r); auto.
Qed.

Lemma worker_loop_dead_exhausted_witness :
  let w := Demo.world_of [Demo.failing] in
  unique_ids (jobs w) /\
  (forall r, In r (jobs w) -> dead_is_exhausted r) /\
  exists r,
    In r (jobs (world_after (worker_loop 40 1) w)) /\
    state r = dead /\ attempts r > max_retries r.
Proof.
  cbv zeta.
  assert (Hu : unique_ids (jobs (Demo.world_of [Demo.failing]))).
  { unfold unique_ids. simpl. constructor; [intros []|constructor]. }
  assert (Hd : forall r, In r (jobs (Demo.world_of [Demo.failing])) ->
                         dead_is_exhausted r).
  { intros r [E|[]]. subst r. intros H. discriminate H. }
  split; [exact Hu|]. split; [exact Hd|].
  assert (E : exists d,
            jobs (world_after (worker_loop 40 1) (Demo.world_of [Demo.failing]))
            = [d] /\ state d = dead).
  { eexists. split; [vm_compute; reflexivity|reflexivity]. }
  destruct E as [d [Ej Ed]].
  assert (Hin : In d (jobs (world_after (worker_loop 40 1)
                              (Demo.world_of [Demo.failing]))))
    by (rewrite Ej; left; reflexivity).
  exists d. split; [exact Hin|]. split; [exact Ed|].
  exact (proj1 (worker_loop_dead_exhausted 40 1 _ Hu Hd d Hin Ed)).
Defined.



Lemma retry_dead_job_ids (job_id : string) (w : world) :
  map id (jobs (world_after (retry_dead_job job_id) w)) = map id (jobs w).
Proof.
  unfold world_after. rewrite retry_dead_job_unfold.
  destruct (fetchone _); [|reflexivity].
  destruct (now_iso w). cbn [snd]. change (jobs (with_jobs ?x _)) with x.
  apply sql_update_ids. reflexivity.
Qed.

Lemma job_retry_unfold (job_id : string) (w : world) :
  job_retry job_id w =
  match fetchone (sql_select (fun j => String.eqb (id j) job_id) (jobs w)) with
  | None => (false, w)
  | Some _ =>
      let (now, w1) := now_iso w in
      (true,
       with_jobs
         (fst (sql_update (fun j => String.eqb (id j) job_id) (rearm_set now)
                 (jobs w)))
         w1)
  end.
Proof.
  unfold job_retry, bind, query. cbn [fst snd].
  destruct (fetchone _); reflexivity.
Qed.

Lemma job_retry_ids (job_id : string) (w : world) :
  map id (jobs (world_after (job_retry job_id) w)) = map id (jobs w).
Proof.
  unfold world_after. rewrite job_retry_unfold.
  destruct (fetchone _); [|reflexivity].
  destruct (now_iso w). cbn [snd]. change (jobs (with_jobs ?x _)) with x.
  apply sql_update_ids. reflexivity.
Qed.

(** X15.  The primary key is an invariant of the store: if no two rows share
    an id, none do after an enqueue, a claim, an outcome write, a
    recovery sweep, a DLQ retry, a dashboard retry or a run of the worker
    loop. *)
Theorem unique_ids_kept (w : world) :
  unique_ids (jobs w) ->
  (forall cmd timeout prio next_run,
     unique_ids
       (jobs (world_after (enqueue_job cmd timeout prio next_run) w))) /\
  unique_ids (jobs (world_after claim_one_job w)) /\
  (forall i out dur,
     unique_ids (jobs (world_after (update_job_success i out dur) w))) /\
  (forall c out dur,
     unique_ids (jobs (world_after (update_job_failure c out dur) w))) /\
  (forall s, unique_ids (jobs (world_after (recover_stuck_jobs s) w))) /\
  (forall i, unique_ids (jobs (world_after (retry_dead_job i) w))) /\
  (forall i, unique_ids (jobs (world_after (job_retry i) w))) /\
  (forall fuel poll,
     unique_ids (jobs (world_after (worker_loop fuel poll) w))).
Proof.
  intros Hu. unfold unique_ids in *.
  split; [intros; apply enqueue_job_unique_ids; exact Hu|].
  split; [rewrite claim_one_job_ids; exact Hu|].
  split; [intros; rewrite update_job_success_ids; exact Hu|].
  split; [intros; rewrite update_job_failure_ids; exact Hu|].
  split; [intros; rewrite recover_stuck_jobs_ids; exact Hu|].
  split; [intros; rewrite retry_dead_job_ids; exact Hu|].
  split; [intros; rewrite job_retry_ids; exact Hu|].
  intros fuel poll.
  rewrite (fixed_columns_ids _ _ (passes_fixed _ _
             (worker_loop_passes fuel poll w))).
  exact Hu.
Qed.

Lemma unique_ids_kept_witness :
  unique_ids (jobs Demo.store) /\
  unique_ids (jobs (world_after (enqueue_job "echo hi" 30 0 None) Demo.store)).
Proof.
  split; [exact unique_ids_demo_store|].
  exact (proj1 (unique_ids_kept Demo.store unique_ids_demo_store)
           "echo hi" 30 0 None).
Defined.

(** ** Claims, one after another *)

Lemma claim_one_job_result (w : world) :
  result_of claim_one_job w = claim_select (result_of now_iso w) (jobs w).
Proof.
  unfold result_of. rewrite claim_one_job_unfold.
  destruct (now_iso w) as [now w1]. cbn [fst].
  destruct (claim_select now (jobs w)); [|reflexivity].
  destruct (now_iso w1) as [l w2]. destruct (now_iso w2). reflexivity.
Qed.

Lemma claim_one_job_table (w : world) (c : Snapshot.t) :
  result_of claim_one_job w = Some c ->
  exists me locked updated,
    jobs (world_after claim_one_job w)
    = fst (sql_update (claim_where (Snapshot.id c))
             (claim_set me locked updated) (jobs w)).
Proof.
  unfold result_of, world_after. rewrite claim_one_job_unfold.
  destruct (now_iso w) as [now w1]. cbn [fst snd].
  destruct (claim_select now (jobs w)) as [c'|]; [|discriminate].
  destruct (now_iso w1) as [l w2]. destruct (now_iso w2) as [u w3].
  cbn [fst snd]. intros E. inversion E; subst c'.
  exists (WORKER_ID (sys w)), l, u. reflexivity.
Qed.

Lemma claim_finds_eligible (now : string) (t : table) (r : job) :
  In r t -> claim_ready now r = true ->
  exists c, claim_select now t = Some c /\
            Snapshot.priority (snapshot r) <= Snapshot.priority c.
Proof.
  intros Hin Hr. destruct (claim_select now t) as [c|] eqn:E.
  - exists c. split; [reflexivity|].
    destruct (claim_select_some _ _ _ E) as [r0 [_ [Hs [_ Hbest]]]].
    specialize (Hbest r Hin Hr). apply claim_order_keys in Hbest.
    rewrite <- Hs. cbn. tauto.
  - rewrite (claim_select_none _ _ E r Hin) in Hr. discriminate Hr.
Qed.

(** X16.  The lease a claim takes: the row of the returned id becomes
    [processing] with [locked_by] the worker's id and [locked_at],
    [updated_at] the two readings of the clock that follow the query, all
    its other columns as they were; every other row is unchanged. *)
Theorem claim_takes_lease (w : world) (c : Snapshot.t) (n : nat) (r : job) :
  unique_ids (jobs w) ->
  result_of claim_one_job w = Some c ->
  nth_error (jobs w) n = Some r ->
  let w1 := world_after now_iso w in
  let locked := result_of now_iso w1 in
  let updated := result_of now_iso (world_after now_iso w1) in
  let w' := world_after claim_one_job w in
  (id r <> Snapshot.id c -> nth_error (jobs w') n = Some r) /\
  (id r = Snapshot.id c ->
   snapshot r = c /\
   exists r',
     nth_error (jobs w') n = Some r' /\
     state r = pending /\ state r' = processing /\
     locked_by r' = Some (WORKER_ID (sys w)) /\
     locked_at r' = Some locked /\ updated_at r' = updated /\
     attempts r' = attempts r /\ next_run_at r' = next_run_at r /\
     last_error r' = last_error r /\ last_output r' = last_output r /\
     duration_seconds r' = duration_seconds r /\
     fixed_columns r' = fixed_columns r).
Proof.
  intros Hu Hres Hn. cbv zeta.
  pose proof (claim_marks_selected_processing w c Hu Hres) as H.
  cbv zeta in H. destruct (H n r Hn) as [Hsame Hother].
  split; [exact Hother|]. intros Hid. destruct (Hsame Hid) as [Hrow Hst].
  split.
  - rewrite claim_one_job_result in Hres.
    destruct (claim_select_some _ _ _ Hres) as [r0 [Hin0 [Hs _]]].
    assert (E : r = r0).
    { apply (unique_ids_same_row (jobs w)); auto.
      - eapply nth_error_In; eauto.
      - rewrite Hid, <- Hs. reflexivity. }
    subst r0. exact Hs.
  - eexists. split; [exact Hrow|]. cbn. repeat split; auto.
Qed.

Lemma claim_takes_lease_witness :
  let w' := world_after claim_one_job Demo.store in
  unique_ids (jobs Demo.store) /\
  result_of claim_one_job Demo.store = Some (snapshot Demo.high) /\
  nth_error (jobs w') 0 = Some Demo.low /\
  exists r',
    nth_error (jobs w') 1 = Some r' /\ state r' = processing /\
    locked_by r' = Some "0c4f81aa".
Proof.
  cbv zeta.
  assert (Hres : result_of claim_one_job Demo.store = Some (snapshot Demo.high))
    by (vm_compute; reflexivity).
  split; [exact unique_ids_demo_store|]. split; [exact Hres|]. split.
  - refine (proj1 (claim_takes_lease Demo.store _ 0 Demo.low
                     unique_ids_demo_store Hres eq_refl) _).
    discriminate.
  - destruct (proj2 (claim_takes_lease Demo.store _ 1 Demo.high
                       unique_ids_demo_store Hres eq_refl) eq_refl)
      as [_ [r' [H1 [_ [H2 [H3 _]]]]]].
    exists r'. repeat split; assumption.
Defined.

(** X17.  No double claim.  Once a claim has returned a job, a later claim on
    the table it left, by any worker and at any time, does not return
    that job's id. *)
Theorem claimed_job_not_claimed_again (w w2 : world) (c c2 : Snapshot.t) :
  result_of claim_one_job w = Some c ->
  jobs w2 = jobs (world_after claim_one_job w) ->
  result_of claim_one_job w2 = Some c2 ->
  Snapshot.id c2 <> Snapshot.id c.
Proof.
  intros Hres Hj Hres2 Hid.
  destruct (claim_one_job_table w c Hres) as [me [l [u Ht]]].
  rewrite claim_one_job_result, Hj, Ht in Hres2.
  destruct (claim_select_some _ _ _ Hres2) as [r2 [Hin2 [Hs2 [Hready2 _]]]].
  apply claim_ready_spec in Hready2. destruct Hready2 as [Hpend _].
  apply sql_update_in in Hin2. destruct Hin2 as [r [Hin E]].
  unfold claim_where in E.
  destruct (String.eqb (id r) (Snapshot.id c)) eqn:Hr;
    destruct (job_state_eqb (state r) pending) eqn:Hst; cbn [andb] in E;
    subst r2.
  - cbn in Hpend. discriminate Hpend.
  - apply job_state_eqb_eq in Hpend. congruence.
  - apply String.eqb_neq in Hr. apply Hr. rewrite <- Hid, <- Hs2. reflexivity.
  - apply String.eqb_neq in Hr. apply Hr. rewrite <- Hid, <- Hs2. reflexivity.
Qed.

Lemma claimed_job_not_claimed_again_witness :
  let w1 := world_after claim_one_job Demo.store in
  result_of claim_one_job Demo.store = Some (snapshot Demo.high) /\
  result_of claim_one_job w1 = Some (snapshot Demo.low) /\
  Snapshot.id (snapshot Demo.low) <> Snapshot.id (snapshot Demo.high).
Proof.
  cbv zeta.
  assert (H1 : result_of claim_one_job Demo.store = Some (snapshot Demo.high))
    by (vm_compute; reflexivity).
  assert (H2 : result_of claim_one_job (world_after claim_one_job Demo.store)
               = Some (snapshot Demo.low))
    by (vm_compute; reflexivity).
  split; [exact H1|]. split; [exact H2|].
  exact (claimed_job_not_claimed_again Demo.store _ _ _ H1 eq_refl H2).
Defined.

(** X18.  A job enqueued without [next_run_at] is eligible at once: the next
    claim returns a job (never "no work"), and one whose priority is at
    least that of the job just enqueued. *)
Theorem enqueued_job_is_claimable (w : world) (cmd : string)
    (timeout prio : Z) (i : string) :
  result_of (enqueue_job cmd timeout prio None) w = inr i ->
  let w' := world_after (enqueue_job cmd timeout prio None) w in
  exists c, result_of claim_one_job w' = Some c /\ prio <= Snapshot.priority c.
Proof.
  intros Hres. cbv zeta. rewrite claim_one_job_result.
  unfold result_of, world_after in *. rewrite enqueue_job_unfold in *.
  unfold uuid4, utcnow, sql_insert in *. cbv zeta in *.
  cbn [fst snd clock reads sys] in *.
  destruct (has_id _ (jobs w)); cbn [fst snd] in *; [discriminate Hres|].
  change (jobs (with_jobs ?x _)) with x.
  match goal with
  | |- context [(jobs w ++ [?r])%list] =>
      destruct (claim_finds_eligible
                  (fst (now_iso (with_jobs (jobs w ++ [r])%list
                                   {| sys := sys w; jobs := jobs w;
                                      config := config w;
                                      clock := clock w + drift (sys w) (reads w);
                                      reads := S (reads w);
                                      uuids := S (uuids w) |})))
                  (jobs w ++ [r])%list r) as [c [Hc Hp]]
  end.
  - apply in_or_app. right. left. reflexivity.
  - reflexivity.
  - exists c. split; [exact Hc|exact Hp].
Qed.

Lemma enqueued_job_is_claimable_witness :
  let w' := world_after (enqueue_job "echo hi" 30 50 None) Demo.store in
  result_of (enqueue_job "echo hi" 30 50 None) Demo.store = inr "3f2a9c1e" /\
  exists c, result_of claim_one_job w' = Some c /\ 50 <= Snapshot.priority c.
Proof.
  cbv zeta. split; [reflexivity|].
  exact (enqueued_job_is_claimable Demo.store "echo hi" 30 50 "3f2a9c1e"
           eq_refl).
Defined.

Lemma rearmed_row_is_claimable (job_id now : string) (t : table) (r : job)
    (w2 : world) :
  In r t -> id r = job_id ->
  jobs w2 = fst (sql_update (fun j => String.eqb (id j) job_id)
                   (rearm_set now) t) ->
  exists c, result_of claim_one_job w2 = Some c /\
            priority r <= Snapshot.priority c.
Proof.
  intros Hin Hid Hj. rewrite claim_one_job_result, Hj.
  destruct (claim_finds_eligible (result_of now_iso w2)
              (fst (sql_update (fun j => String.eqb (id j) job_id)
                      (rearm_set now) t))
              (rearm_set now r)) as [c [Hc Hp]].
  - apply sql_update_in. exists r. split; [exact Hin|].
    rewrite Hid, String.eqb_refl. reflexivity.
  - reflexivity.
  - exists c. split; [exact Hc|exact Hp].
Qed.

(** X19.  A dead job that [retry_dead_job] re-armed is eligible at once: the
    next claim returns a job, of a priority at least that of the
    re-armed one. *)
Theorem retried_dead_job_is_claimable (w : world) (job_id : string) (r : job) :
  In r (jobs w) -> id r = job_id -> state r = dead ->
  let w' := world_after (retry_dead_job job_id) w in
  result_of (retry_dead_job job_id) w = true /\
  exists c, result_of claim_one_job w' = Some c /\
            priority r <= Snapshot.priority c.
Proof.
  intros Hin Hid Hd. cbv zeta. unfold result_of at 1, world_after.
  rewrite retry_dead_job_unfold.
  destruct (fetchone _) as [d|] eqn:Hf.
  - destruct (now_iso w) as [now w1]. cbn [fst snd]. split; [reflexivity|].
    apply (rearmed_row_is_claimable job_id now (jobs w)); auto.
  - exfalso.
    destruct (proj2 (fetchone_select_some
                       (fun j => String.eqb (id j) job_id
                                 && job_state_eqb (state j) dead) (jobs w)))
      as [x Hx].
    + exists r. split; [exact Hin|]. rewrite Hid, String.eqb_refl, Hd.
      reflexivity.
    + rewrite Hf in Hx. discriminate Hx.
Qed.

Lemma retried_dead_job_is_claimable_witness :
  let w := world_after (worker_loop 40 1) (Demo.world_of [Demo.failing]) in
  let w' := world_after (retry_dead_job "e0000005") w in
  exists c, result_of claim_one_job w' = Some c /\ 0 <= Snapshot.priority c.
Proof.
  cbv zeta.
  set (w := world_after (worker_loop 40 1) (Demo.world_of [Demo.failing])).
  assert (E : exists d, jobs w = [d] /\ id d = "e0000005" /\ state d = dead
                        /\ priority d = 0).
  { eexists. split; [vm_compute; reflexivity|]. repeat split; reflexivity. }
  destruct E as [d [Ej [Ei [Ed Ep]]]].
  assert (Hin : In d (jobs w)) by (rewrite Ej; left; reflexivity).
  destruct (retried_dead_job_is_claimable w "e0000005" d Hin Ei Ed)
    as [_ [c [Hc Hp]]].
  exists c. split; [exact Hc|]. rewrite <- Ep. exact Hp.
Defined.

(** X20.  The dashboard's retry does not look at the state.  It answers "found"
    for every id that is present; the row becomes pending with
    [attempts = 0] and [next_run_at], [last_error] cleared, while
    [locked_by] and [locked_at] stay; so a job that a worker is
    processing becomes claimable again, its first lease still recorded:
    the next claim returns a job of at least its priority. *)
Theorem job_retry_rearms_any_state (w : world) (job_id : string) (n : nat)
    (r : job) :
  nth_error (jobs w) n = Some r -> id r = job_id ->
  let w' := world_after (job_retry job_id) w in
  result_of (job_retry job_id) w = true /\
  (exists r',
     nth_error (jobs w') n = Some r' /\
     state r' = pending /\ attempts r' = 0 /\
     next_run_at r' = None /\ last_error r' = None /\
     locked_by r' = locked_by r /\ locked_at r' = locked_at r) /\
  exists c, result_of claim_one_job w' = Some c /\
            priority r <= Snapshot.priority c.
Proof.
  intros Hn Hid. cbv zeta. unfold result_of at 1, world_after.
  rewrite job_retry_unfold.
  assert (Hin : In r (jobs w)) by (eapply nth_error_In; eauto).
  destruct (fetchone _) as [d|] eqn:Hf.
  - destruct (now_iso w) as [now w1]. cbn [fst snd]. split; [reflexivity|].
    split.
    + change (jobs (with_jobs ?x _)) with x.
      rewrite sql_update_nth, Hn. cbn [option_map].
      rewrite Hid, String.eqb_refl. eexists. split; [reflexivity|].
      cbn. repeat split; reflexivity.
    + apply (rearmed_row_is_claimable job_id now (jobs w)); auto.
  - exfalso.
    destruct (proj2 (fetchone_select_some
                       (fun j => String.eqb (id j) job_id) (jobs w)))
      as [x Hx].
    + exists r. split; [exact Hin|]. rewrite Hid. apply String.eqb_refl.
    + rewrite Hf in Hx. discriminate Hx.
Qed.

Lemma job_retry_rearms_any_state_witness :
  let w' := world_after (job_retry "d0000004") Demo.store in
  nth_error (jobs Demo.store) 3 = Some Demo.stuck /\
  state Demo.stuck = processing /\
  exists r',
    nth_error (jobs w') 3 = Some r' /\ state r' = pending /\
    locked_by r' = Some "deadbeef".
Proof.
  cbv zeta. split; [reflexivity|]. split; [reflexivity|].
  destruct (job_retry_rearms_any_state Demo.store "d0000004" 3 Demo.stuck
              eq_refl eq_refl)
    as [_ [[r' [H1 [H2 [_ [_ [_ [H3 _]]]]]]] _]].
  exists r'. split; [exact H1|]. split; [exact H2|]. rewrite H3. reflexivity.
Defined.

(** ** One pass, by what the command did *)

(** The row of the claimed job after a pass, from the exit code and the
    streams that [run_command] returned. *)
Lemma worker_iteration_row (w : world) (poll_interval start : Q)
    (c : Snapshot.t) (code : Z) (out err : string) (r : job) :
  result_of claim_one_job w = Some c ->
  result_of (run_command (Snapshot.command c) (Snapshot.timeout_seconds c))
    (world_after claim_one_job w) = (code, out, err) ->
  In r (jobs (world_after (worker_iteration poll_interval start) w)) ->
  id r = Snapshot.id c ->
  (code = 0 /\ state r = completed /\
   last_output r = Some (Text.slice_to 5000 (out ++ err))) \/
  (code <> 0 /\
   attempts r = Snapshot.attempts c + 1 /\
   last_output r
   = Some (Text.slice_to 5000 (Text.or_else (out ++ err) "Unknown error")) /\
   ((state r = dead /\ last_error r = Some "Max retries exceeded") \/
    (state r = pending /\ last_error r = Some "Job failed"))).
Proof.
  unfold result_of, world_after. rewrite worker_iteration_unfold.
  destruct (claim_one_job w) as [claimed w1]. cbn [fst snd].
  intros Hc. subst claimed.
  destruct (run_command _ _ w1) as [res w2]. cbn [fst snd].
  intros Hr. subst res.
  unfold time_time, bind, utcnow, ret. cbn [fst snd].
  set (w3 := mkWorld _ _ _ _ _ _). set (dur := (_ - start)%Q).
  unfold time_sleep. cbn [snd advance jobs].
  assert (Ho : forall s, Text.or_else s "" = s) by (intros []; reflexivity).
  rewrite !Ho. intros Hin Hid.
  destruct (Z.eqb_spec code 0) as [E|E].
  - left. unfold world_after in Hin. rewrite update_job_success_unfold in Hin.
    destruct (now_iso w3) as [n3 w4]. cbn [fst snd] in Hin.
    change (jobs (with_jobs ?x _)) with x in Hin.
    apply sql_update_in in Hin. destruct Hin as [r0 [_ Er]].
    destruct (String.eqb (id r0) (Snapshot.id c)) eqn:H0.
    + subst r. repeat split; auto.
    + subst r. apply String.eqb_neq in H0. contradiction.
  - right. unfold world_after in Hin. rewrite update_job_failure_unfold in Hin.
    cbv zeta in Hin. destruct (now_iso w3) as [n3 w4].
    destruct (utcnow w4) as [t4 w5]. cbn [fst snd] in Hin.
    change (jobs (with_jobs ?x _)) with x in Hin.
    apply sql_update_in in Hin. destruct Hin as [r0 [_ Er]].
    destruct (String.eqb (id r0) (Snapshot.id c)) eqn:H0.
    + subst r.
      destruct (Snapshot.max_retries c <? Snapshot.attempts c + 1);
        (split; [exact E|]); (split; [reflexivity|]);
        (split; [reflexivity|]); [left|right]; split; reflexivity.
    + subst r. apply String.eqb_neq in H0. contradiction.
Qed.

(** X21.  A job whose command timed out is never marked completed: its row
    counts one more attempt and becomes pending or dead, the text
    "Timeout after N seconds" goes to [last_output], and [last_error] is
    "Job failed" or "Max retries exceeded", not the timeout text. *)
Theorem timeout_is_recorded_as_failure (w : world) (poll_interval start : Q)
    (c : Snapshot.t) (r : job) :
  result_of claim_one_job w = Some c ->
  let w1 := world_after claim_one_job w in
  let N := Snapshot.timeout_seconds c in
  fst (subprocess_run (sys w1) (Snapshot.command c) N (clock w1))
  = TimeoutExpired ->
  In r (jobs (world_after (worker_iteration poll_interval start) w)) ->
  id r = Snapshot.id c ->
  attempts r = Snapshot.attempts c + 1 /\
  last_output r
  = Some (Text.slice_to 5000
            ("Timeout after " ++ Text.str_int N ++ " seconds")) /\
  ((state r = dead /\ last_error r = Some "Max retries exceeded") \/
   (state r = pending /\ last_error r = Some "Job failed")).
Proof.
  intros Hc w1 N Hto Hin Hid.
  assert (Hrun : result_of (run_command (Snapshot.command c) N) w1
                 = (124, "", "Timeout after " ++ Text.str_int N ++ " seconds")).
  { unfold result_of, run_command.
    destruct (subprocess_run (sys w1) (Snapshot.command c) N (clock w1))
      as [o e]. cbn [fst] in *. subst o. reflexivity. }
  destruct (worker_iteration_row w poll_interval start c _ _ _ r Hc Hrun Hin Hid)
    as [[H0 _]|[_ [Ha [Ho Hs]]]]; [discriminate H0|].
  split; [exact Ha|]. split; [|exact Hs].
  rewrite Ho. reflexivity.
Qed.

Lemma timeout_is_recorded_as_failure_witness :
  let slow :=
    Demo.row "f0000006" "sleep 5" pending 0 "2025-01-01T10:00:04.000100Z"
      None in
  let w := Demo.world_of [slow] in
  let r := nth 0 (jobs (world_after (worker_iteration 1 0) w)) slow in
  result_of claim_one_job w = Some (snapshot slow) /\
  last_output r = Some "Timeout after 30 seconds" /\
  (state r = dead \/ state r = pending).
Proof.
  cbv zeta. split; [reflexivity|].
  destruct (timeout_is_recorded_as_failure
              (Demo.world_of
                 [Demo.row "f0000006" "sleep 5" pending 0
                    "2025-01-01T10:00:04.000100Z" None])
              1 0 _
              (nth 0 (jobs (world_after (worker_iteration 1 0)
                              (Demo.world_of
                                 [Demo.row "f0000006" "sleep 5" pending 0
                                    "2025-01-01T10:00:04.000100Z" None])))
                 (Demo.row "f0000006" "sleep 5" pending 0
                    "2025-01-01T10:00:04.000100Z" None))
              eq_refl eq_refl) as [_ [Ho Hs]].
  - vm_compute. left. reflexivity.
  - vm_compute. reflexivity.
  - split; [rewrite Ho; reflexivity|].
    destruct Hs as [[H _]|[H _]]; [left|right]; exact H.
Defined.

(** X22.  A pass marks its job completed only if the child process completed
    with return code 0: never after a timeout, an exception or a non-zero
    exit. *)
Theorem completed_only_after_exit_zero (w : world) (poll_interval start : Q)
    (c : Snapshot.t) (r : job) :
  result_of claim_one_job w = Some c ->
  let w1 := world_after claim_one_job w in
  In r (jobs (world_after (worker_iteration poll_interval start) w)) ->
  id r = Snapshot.id c ->
  state r = completed ->
  exists out err,
    fst (subprocess_run (sys w1) (Snapshot.command c)
           (Snapshot.timeout_seconds c) (clock w1))
    = Completed 0 out err.
Proof.
  intros Hc w1 Hin Hid Hst.
  destruct (result_of (run_command (Snapshot.command c)
                         (Snapshot.timeout_seconds c)) w1)
    as [[code out] err] eqn:Hrun.
  destruct (worker_iteration_row w poll_interval start c _ _ _ r Hc Hrun Hin Hid)
    as [[H0 _]|[_ [_ [_ [[Hs _]|[Hs _]]]]]]; try congruence.
  subst code. unfold result_of, run_command in Hrun.
  destruct (subprocess_run (sys w1) (Snapshot.command c)
              (Snapshot.timeout_seconds c) (clock w1)) as [o e].
  cbn [fst] in *. destruct o as [rc so se| |m]; inversion Hrun; subst.
  exists so, se. reflexivity.
Qed.

Lemma completed_only_after_exit_zero_witness :
  let w := Demo.world_of [Demo.low] in
  let r := nth 0 (jobs (world_after (worker_iteration 1 0) w)) Demo.low in
  state r = completed /\
  exists out err,
    fst (subprocess_run Demo.machine "echo LOW" 30
           (clock (world_after claim_one_job w)))
    = Completed 0 out err.
Proof.
  cbv zeta. split; [vm_compute; reflexivity|].
  refine (completed_only_after_exit_zero (Demo.world_of [Demo.low]) 1 0
            (snapshot Demo.low) _ eq_refl _ _ _).
  - vm_compute. left. reflexivity.
  - vm_compute. reflexivity.
  - vm_compute. reflexivity.
Defined.

(** X23.  An output of at most 5,000 characters is stored whole by both
    writers. *)
Theorem short_output_is_stored_whole (w : world) (claimed : Snapshot.t)
    (job_id output : string) (duration : Q) :
  (String.length output <= 5000)%nat ->
  (forall r,
     In r (jobs (world_after (update_job_success job_id output duration) w)) ->
     id r = job_id -> last_output r = Some output) /\
  (forall r,
     In r (jobs (world_after (update_job_failure claimed output duration) w)) ->
     id r = Snapshot.id claimed -> last_output r = Some output).
Proof.
  intros Hlen. unfold world_after.
  rewrite update_job_success_unfold, update_job_failure_unfold. cbv zeta.
  destruct (now_iso w) as [now w1]. destruct (utcnow w1) as [t w2].
  cbn [fst snd]. change (jobs (with_jobs ?x _)) with x.
  split; intros r Hin Hid; apply sql_update_in in Hin;
    destruct Hin as [r0 [_ E]].
  - destruct (String.eqb (id r0) job_id) eqn:H0; subst r.
    + cbn. rewrite slice_to_short by exact Hlen. reflexivity.
    + apply String.eqb_neq in H0. contradiction.
  - destruct (String.eqb (id r0) (Snapshot.id claimed)) eqn:H0; subst r.
    + destruct (Snapshot.max_retries claimed <? Snapshot.attempts claimed + 1);
        cbn; rewrite slice_to_short by exact Hlen; reflexivity.
    + apply String.eqb_neq in H0. contradiction.
Qed.

Lemma short_output_is_stored_whole_witness :
  let w := Demo.world_of [Demo.low] in
  (String.length "LOW" <= 5000)%nat /\
  last_output
    (nth 0 (jobs (world_after (update_job_success "a0000001" "LOW" 2) w))
       Demo.low)
  = Some "LOW".
Proof.
  cbv zeta.
  assert (Hlen : (String.length "LOW" <= 5000)%nat) by (vm_compute; lia).
  split; [exact Hlen|].
  apply (proj1 (short_output_is_stored_whole (Demo.world_of [Demo.low])
                  (snapshot Demo.low) "a0000001" "LOW" 2 Hlen)).
  - vm_compute. left. reflexivity.
  - vm_compute. reflexivity.
Defined.

(** ** The timestamp of an enqueue *)

Lemma plus_free_app (a b : string) :
  plus_free (a ++ b) = plus_free a && plus_free b.
Proof.
  induction a as [|c a IH]; simpl.
  - reflexivity.
  - rewrite IH. apply andb_assoc.
Qed.

Lemma plus_free_uint (d : Decimal.uint) :
  plus_free (NilEmpty.string_of_uint d) = true.
Proof. induction d; simpl; auto. Qed.

Lemma plus_free_str_int (n : Z) : plus_free (Text.str_int n) = true.
Proof.
  unfold Text.str_int, NilZero.string_of_int, NilZero.string_of_uint.
  destruct (Z.to_int n) as [d|d]; destruct d; simpl;
    try reflexivity; apply plus_free_uint.
Qed.

Lemma plus_free_zeros (n : nat) : plus_free (Text.zeros n) = true.
Proof. induction n; simpl; auto. Qed.

Lemma plus_free_pad (w : nat) (n : Z) : plus_free (Text.pad w n) = true.
Proof.
  unfold Text.pad. rewrite plus_free_app, plus_free_zeros, plus_free_str_int.
  reflexivity.
Qed.

Lemma plus_free_isoformat (t : Time.datetime) :
  plus_free (Time.isoformat t) = true.
Proof.
  unfold Time.isoformat.
  destruct (Time.civil_from_days (t / Time.us_per_day)) as [[y m] d].
  destruct (t mod Time.us_per_day mod Time.us_per_second =? 0);
    repeat (rewrite plus_free_app || rewrite plus_free_pad); reflexivity.
Qed.

Lemma replace_fuel_empty (fuel : nat) (old new : string) :
  Text.replace_fuel fuel old new "" = "".
Proof. destruct fuel; reflexivity. Qed.

Lemma replace_offset_suffix (s : string) (fuel : nat) :
  plus_free s = true -> (String.length s < fuel)%nat ->
  Text.replace_fuel fuel "+00:00" "Z" (s ++ "+00:00") = s ++ "Z".
Proof.
  revert fuel. induction s as [|c s IH]; intros fuel Hp Hf.
  - destruct fuel as [|k]; [simpl in Hf; lia|].
    cbn. rewrite replace_fuel_empty. reflexivity.
  - destruct fuel as [|k]; [simpl in Hf; lia|].
    simpl in Hp. apply andb_true_iff in Hp. destruct Hp as [Hc Hs].
    cbn [append Text.replace_fuel].
    assert (Hpre : prefix "+00:00" (String c (s ++ "+00:00")) = false).
    { cbn [prefix]. destruct (ascii_dec "+" c) as [E|E]; [|reflexivity].
      subst c. discriminate Hc. }
    rewrite Hpre. f_equal. apply IH; [exact Hs|]. simpl in Hf. lia.
Qed.

Lemma length_append (a b : string) :
  String.length (a ++ b) = (String.length a + String.length b)%nat.
Proof. induction a as [|c a IH]; simpl; [reflexivity|]. rewrite IH. reflexivity. Qed.

(** X24.  The [created_at] and [updated_at] that [enqueue_job] writes are, for
    every reading of the clock, the very text that [now_iso()] gives for
    that reading: replacing "+00:00" by "Z" in the offset-aware ISO text
    touches the suffix only. *)
Theorem enqueue_stamp_is_now_iso (w : world) (cmd : string)
    (timeout prio : Z) (next_run : option string) (i : string) (r : job) :
  result_of (enqueue_job cmd timeout prio next_run) w = inr i ->
  In r (jobs (world_after (enqueue_job cmd timeout prio next_run) w)) ->
  id r = i ->
  created_at r = result_of now_iso w /\ updated_at r = result_of now_iso w.
Proof.
  assert (Hstamp : forall t,
            Text.replace "+00:00" "Z" (Time.isoformat_utc t)
            = Time.isoformat t ++ "Z").
  { intros t. unfold Text.replace, Time.isoformat_utc.
    apply replace_offset_suffix; [apply plus_free_isoformat|].
    rewrite length_append. simpl. lia. }
  unfold result_of, world_after. rewrite enqueue_job_unfold.
  unfold uuid4, utcnow, sql_insert, now_iso, bind, utcnow, ret. cbv zeta.
  cbn [fst snd clock reads sys].
  destruct (has_id _ (jobs w)) eqn:Hid; cbn [fst snd]; intros E;
    inversion E; subst i.
  change (jobs (with_jobs ?x _)) with x. intros Hin Hr.
  apply in_app_or in Hin. destruct Hin as [Hin|[Hin|[]]].
  - exfalso. cbn [id] in Hid.
    assert (H : has_id (id r) (jobs w) = true)
      by (apply has_id_spec; apply in_map; exact Hin).
    rewrite Hr, Hid in H. discriminate H.
  - subst r. cbn [created_at updated_at]. rewrite Hstamp. split; reflexivity.
Qed.

Lemma enqueue_stamp_is_now_iso_witness :
  let w' := world_after (enqueue_job "echo hi" 30 0 None) Demo.store in
  let r := nth 4 (jobs w') Demo.low in
  result_of (enqueue_job "echo hi" 30 0 None) Demo.store = inr "3f2a9c1e" /\
  created_at r = "2025-01-01T12:00:00.001000Z" /\
  created_at r = result_of now_iso Demo.store.
Proof.
  cbv zeta. split; [reflexivity|]. split; [vm_compute; reflexivity|].
  refine (proj1 (enqueue_stamp_is_now_iso Demo.store "echo hi" 30 0 None
                   "3f2a9c1e" _ eq_refl _ _)).
  - vm_compute. do 4 right. left. reflexivity.
  - vm_compute. reflexivity.
Defined.
